(** * Broadcast: a UDP broadcast probe

    A shallow embedding of [Broadcast.cpp] (a Winsock utility that either
    sends an incrementing counter as UDP broadcast datagrams or receives and
    reports them), and the properties of its specification stated over that
    embedding.

    Conventions.
    - [int], [long] and [u_long] are 32 bits wide and [u_short] is 16 bits
      wide, as on every Windows target; the host is little-endian.
    - A C string is the text before its terminator; [argv[i][k]] for [k]
      equal to the length is the terminator [NUL]. The arguments lie in
      memory one after the other, each followed by its terminator, so the
      byte after the terminator of an argument is the first byte of the
      next argument; what follows the last argument is given by the
      environment.
    - The operating system is an oracle [Env] that answers each library call;
      every call with an effect is recorded as an [event] of the run. *)

From Stdlib Require Import ZArith List String Ascii Bool Lia.
From Stdlib Require Import DecimalString DecimalPos DecimalZ.
Import ListNotations.
Local Open Scope Z_scope.
Local Open Scope list_scope.

(* ===================================================================== *)
(** * Machine integers and object representations *)
(* ===================================================================== *)

Module CInt.

Definition INT_MIN : Z := - 2 ^ 31.
Definition INT_MAX : Z := 2 ^ 31 - 1.
Definition LONG_MIN : Z := INT_MIN.
Definition LONG_MAX : Z := INT_MAX.

(** Conversion of a mathematical integer to [int]: two's complement
    wrap-around on 32 bits. *)
Definition wrap_int (z : Z) : Z := (z + 2 ^ 31) mod 2 ^ 32 - 2 ^ 31.

(** Conversion to [u_short] and to [u_long]. *)
Definition to_u_short (z : Z) : Z := z mod 2 ^ 16.
Definition to_u_long (z : Z) : Z := z mod 2 ^ 32.

Definition byte_to_Z (b : Byte.byte) : Z := Z.of_N (Byte.to_N b).

Definition byte_of_Z (z : Z) : Byte.byte :=
  match Byte.of_N (Z.to_N (Z.land z 255)) with
  | Some b => b
  | None => Byte.x00
  end.

(** [sizeof(int)] *)
Definition sizeof_int : nat := 4.

(** The four bytes of an [int] object, lowest address first
    (what [(char * )&nValue] points at). *)
Definition int_bytes (v : Z) : list Byte.byte :=
  [ byte_of_Z v;
    byte_of_Z (Z.shiftr v 8);
    byte_of_Z (Z.shiftr v 16);
    byte_of_Z (Z.shiftr v 24) ].

(** The unsigned number a little-endian byte sequence denotes. *)
Fixpoint le_value (bs : list Byte.byte) : Z :=
  match bs with
  | [] => 0
  | b :: bs' => byte_to_Z b + 256 * le_value bs'
  end.

(** The [int] whose object representation is [bs]. *)
Definition bytes_int (bs : list Byte.byte) : Z := wrap_int (le_value bs).

(** Writing [data] at the start of the [int] object holding [old]: the
    bytes covered by [data] are replaced, the others keep their content.
    At most [sizeof_int] bytes are written. *)
Definition store_prefix (data : list Byte.byte) (old : Z) : Z :=
  let written := firstn sizeof_int data in
  bytes_int (written ++ skipn (List.length written) (int_bytes old)).

(** [p] holds of the [n] integers from [z] on. *)
Fixpoint all_from (n : nat) (z : Z) (p : Z -> bool) : bool :=
  match n with
  | O => true
  | S n' => p z && all_from n' (z + 1) p
  end.

End CInt.

(* ===================================================================== *)
(** * The C library functions the program calls *)
(* ===================================================================== *)

Module CLib.
Import CInt.

Definition NUL : ascii := "000"%char.
Definition TAB : string := String "009"%char EmptyString.
Definition LF : string := String "010"%char EmptyString.

(** [strlen] *)
Definition strlen (s : string) : Z := Z.of_nat (String.length s).

(** [printf("%d", z)] *)
Definition fmt_d (z : Z) : string := NilZero.string_of_int (Z.to_int z).

(** [printf("%c", c)] *)
Definition fmt_c (c : ascii) : string := String c EmptyString.

(** [isspace] in the "C" locale: space, and the controls 9 to 13. *)
Definition isspace (c : ascii) : bool :=
  let n := Z.of_nat (nat_of_ascii c) in
  (n =? 32) || ((9 <=? n) && (n <=? 13)).

Definition digit_value (c : ascii) : option Z :=
  let n := Z.of_nat (nat_of_ascii c) in
  if (48 <=? n) && (n <=? 57) then Some (n - 48) else None.

Fixpoint skip_space (s : string) : string :=
  match s with
  | String c r => if isspace c then skip_space r else s
  | EmptyString => s
  end.

(** The number denoted by the longest prefix of decimal digits of [s],
    continuing from [acc]; no digit at all leaves [acc]. *)
Fixpoint read_digits (acc : Z) (s : string) : Z :=
  match s with
  | String c r =>
      match digit_value c with
      | Some d => read_digits (10 * acc + d) r
      | None => acc
      end
  | EmptyString => acc
  end.

Definition clamp_long (z : Z) : Z :=
  if z <? LONG_MIN then LONG_MIN
  else if LONG_MAX <? z then LONG_MAX
  else z.

(** [strtol(s, NULL, 10)]: leading white space is skipped, an optional
    sign is read, then the longest run of decimal digits. With no digit
    the result is 0; a value that does not fit a [long] is replaced by
    [LONG_MAX] or [LONG_MIN]. *)
Definition strtol (s : string) : Z :=
  match skip_space s with
  | String "-" r => clamp_long (- read_digits 0 r)
  | String "+" r => clamp_long (read_digits 0 r)
  | r => clamp_long (read_digits 0 r)
  end.

(** [strcpy_s(dest, destsz, src)]: the copy of [src] when it fits with its
    terminator in [destsz] bytes; otherwise the invalid-parameter handler
    runs ([None]). *)
Definition strcpy_s (destsz : Z) (src : string) : option string :=
  if strlen src <? destsz then Some src else None.

End CLib.

(* ===================================================================== *)
(** * Winsock data and pure helpers *)
(* ===================================================================== *)

Module Winsock.
Import CInt CLib.

Definition AF_INET : Z := 2.
Definition SOCK_DGRAM : Z := 2.
Definition SOCKET_ERROR : Z := -1.
Definition INADDR_ANY : Z := 0.
Definition INADDR_BROADCAST : Z := 0xffffffff.
Definition INADDR_NONE : Z := 0xffffffff.
(** The error Winsock raises for a datagram larger than the buffer. *)
Definition WSAEMSGSIZE : Z := 10040.

Inductive sockopt_level := SOL_SOCKET | IPPROTO_IP.
Inductive sockopt_name := SO_BROADCAST | IP_MULTICAST_TTL.

(** [struct sockaddr_in]; [sin_port] and [sin_addr] hold the values as
    stored, i.e. in network byte order. *)
Record sockaddr_in := mk_sockaddr_in {
  sin_family : Z;
  sin_port : Z;
  sin_addr : Z
}.

(** [MAKEWORD(low, high)] *)
Definition MAKEWORD (low high : Z) : Z :=
  Z.lor (Z.land low 255) (Z.shiftl (Z.land high 255) 8).

(** [htons]: the argument is converted to [u_short], then its two bytes
    are exchanged. *)
Definition htons (x : Z) : Z :=
  let v := to_u_short x in
  Z.lor (Z.shiftl (Z.land v 255) 8) (Z.shiftr v 8).

Definition ntohs (x : Z) : Z := htons x.

(** [htonl]: conversion to [u_long], then the four bytes are reversed. *)
Definition htonl (x : Z) : Z :=
  let v := to_u_long x in
  Z.lor (Z.shiftl (Z.land v 255) 24)
    (Z.lor (Z.shiftl (Z.land (Z.shiftr v 8) 255) 16)
       (Z.lor (Z.shiftl (Z.land (Z.shiftr v 16) 255) 8)
          (Z.land (Z.shiftr v 24) 255))).

(** The [k]-th byte in memory of an address. *)
Definition addr_byte (a : Z) (k : Z) : Z := Z.land (Z.shiftr a (8 * k)) 255.

(** [inet_ntoa]: the four bytes of the address in memory order, in decimal,
    separated by dots. *)
Definition inet_ntoa (a : Z) : string :=
  (fmt_d (addr_byte a 0) ++ "." ++ fmt_d (addr_byte a 1) ++ "."
     ++ fmt_d (addr_byte a 2) ++ "." ++ fmt_d (addr_byte a 3))%string.

End Winsock.

(* ===================================================================== *)
(** * Runs of the process *)
(* ===================================================================== *)

Module Proc.
Import Winsock.

(** The library calls with an effect, in the order the process makes
    them. *)
Inductive event :=
| Printf (text : string)
| Perror (prefix : string)
| WSAStartup (wVersionRequested : Z)
| Socket (af type protocol : Z)
| Setsockopt (s : Z) (level : sockopt_level) (optname : sockopt_name) (optval : Z)
| Bind (s : Z) (name : sockaddr_in)
| Sendto (s : Z) (buf : list Byte.byte) (dst : sockaddr_in)
| Recvfrom (s : Z) (len : nat)
| Sleep (ms : Z).

(** How a computation stops without a value. *)
Inductive halt :=
| Exited (status : Z)       (* exit(status) *)
| InvalidParameter          (* the CRT invalid-parameter handler ended the process *)
| Running.                  (* the observation ended before the process did *)

Inductive result (A : Type) :=
| Ret (a : A)
| Halt (h : halt).
Arguments Ret {A} a.
Arguments Halt {A} h.

(** A computation: the events it makes and how it ends. *)
Definition proc (A : Type) : Type := list event * result A.

Definition ret {A} (a : A) : proc A := ([], Ret a).

(** Sequencing: the events of [m], then those of [k] unless [m] halted. *)
Definition and_then {A B} (m : proc A) (k : A -> proc B) : proc B :=
  match m with
  | (t, Ret a) => let (t', r) := k a in (t ++ t', r)
  | (t, Halt h) => (t, Halt h)
  end.

Definition emit (e : event) : proc unit := ([e], Ret tt).
Definition stop {A} (h : halt) : proc A := ([], Halt h).
Definition exit {A} (status : Z) : proc A := stop (Exited status).
Definition printf (text : string) : proc unit := emit (Printf text).
Definition perror (prefix : string) : proc unit := emit (Perror prefix).

Definition trace {A} (m : proc A) : list event := fst m.
Definition outcome {A} (m : proc A) : result A := snd m.

End Proc.

Declare Scope proc_scope.
Delimit Scope proc_scope with proc.
Notation "x <- c ;; k" := (Proc.and_then c (fun x => k))
  (at level 61, c at next level, right associativity) : proc_scope.
Notation "c ;; k" := (Proc.and_then c (fun _ => k))
  (at level 61, right associativity) : proc_scope.

(* ===================================================================== *)
(** * The operating system as an oracle *)
(* ===================================================================== *)

Module OS.
Import CInt Winsock.

(** What one call of [recvfrom] leaves behind: its return value, the bytes
    it stored at the start of the buffer, the content of the address
    structure, and the value [WSAGetLastError] reports afterwards. *)
Record recv_outcome := mk_recv_outcome {
  rv_result : Z;
  rv_data : list Byte.byte;
  rv_from : sockaddr_in;
  rv_error : Z
}.

Record Env := mk_Env {
  env_WSAStartup : Z;                                  (* return value of WSAStartup *)
  env_socket : Z;                                      (* the SOCKET that socket returns *)
  env_setsockopt : sockopt_level -> sockopt_name -> Z; (* return value of setsockopt *)
  env_bind : Z;                                        (* return value of bind *)
  env_sendto : nat -> Z;                               (* return value of the i-th sendto *)
  env_recvfrom : nat -> nat -> recv_outcome;           (* the i-th recvfrom, by buffer length *)
  env_inet_addr : string -> Z;                         (* inet_addr *)
  env_after_argv : string                              (* the text in memory after the
                                                          terminator of the last argument *)
}.

(** What the network hands to one call of [recvfrom]. *)
Inductive arrival :=
| Datagram (payload : list Byte.byte) (source : sockaddr_in)
| Failure (error : Z).

(** [recvfrom] as Winsock documents it for a datagram socket: a datagram
    that fits the buffer is stored whole and its length returned; for a
    larger one the buffer is filled with the first part, the rest is lost
    and the call fails with [WSAEMSGSIZE]. *)
Definition winsock_recvfrom (len : nat) (a : arrival) : recv_outcome :=
  match a with
  | Datagram payload source =>
      if (List.length payload <=? len)%nat
      then mk_recv_outcome (Z.of_nat (List.length payload)) payload source 0
      else mk_recv_outcome SOCKET_ERROR (firstn len payload) source WSAEMSGSIZE
  | Failure error =>
      mk_recv_outcome SOCKET_ERROR [] (mk_sockaddr_in 0 0 0) error
  end.

End OS.

(* ===================================================================== *)
(** * The program *)
(* ===================================================================== *)

Module Broadcast.
Import CInt CLib Winsock Proc OS.
Local Open Scope proc_scope.

(** The values [main] hands to the loops: [nPort], [nTtl], [bRecv] and
    [sOvrAddr]. *)
Record RunConfiguration := mk_RunConfiguration {
  nPort : Z;
  nTtl : Z;
  bRecv : Z;
  sOvrAddr : string
}.

Definition displayUsage : proc unit :=
  printf ("broadcast [-r] [-aAAAA] [-pPPPP] [tTTTT] [-?]" ++ LF)%string ;;
  printf (TAB ++ "  -r" ++ TAB
            ++ "Receive broadcasts. Default is to send without this flag." ++ LF)%string ;;
  printf (TAB ++ "AAAA" ++ TAB ++ "IP address to send broadcast to." ++ LF
            ++ TAB ++ TAB
            ++ "By default the global broadcast address 255.255.255.255 is used."
            ++ TAB ++ TAB
            ++ "If you want to test a specific network you could use this to specify." ++ LF
            ++ TAB ++ TAB ++ "EG 192.168.50.1" ++ LF)%string ;;
  printf (TAB ++ "PPPP" ++ TAB ++ "The port to broadcast on. Default is 40061" ++ LF)%string ;;
  printf (TAB ++ "TTTT" ++ TAB ++ "The multi-cast TTL to use. Default is 1" ++ LF)%string.

(** The text at [argv[i] + 1]: the argument without its first character,
    or, for an empty argument, what lies after its terminator ([next], the
    argument that follows). *)
Definition after_first (arg next : string) : string :=
  match arg with
  | String _ rest => rest
  | EmptyString => next
  end.

(** [argv[i][1]], given the text at [argv[i] + 1]: its first character, or
    the terminator when it is empty. *)
Definition char_at_1 (rest : string) : ascii :=
  match rest with
  | String k _ => k
  | EmptyString => NUL
  end.

(** [&argv[i][2]], given the text at [argv[i] + 1]. *)
Definition text_at_2 (rest : string) : string :=
  match rest with
  | String _ t => t
  | EmptyString => EmptyString
  end.

(** The text of [printf("Unknown command line argument '%c'\n", k)]. *)
Definition unknown_text (k : ascii) : string :=
  ("Unknown command line argument '" ++ fmt_c k ++ "'" ++ LF)%string.

(** The body of the [for] loop of [parseCommandLine] on [argv[i] = arg],
    [next] being the text that follows the terminator of [arg]. *)
Definition parse_arg (nAddrSize : Z) (arg next : string) (c : RunConfiguration)
  : proc RunConfiguration :=
  let rest := after_first arg next in
  let k := char_at_1 rest in      (* switch (argv[i][1]) *)
  if (k =? "a")%char then
    match strcpy_s nAddrSize (text_at_2 rest) with
    | Some sAddr => ret (mk_RunConfiguration (nPort c) (nTtl c) (bRecv c) sAddr)
    | None => stop InvalidParameter
    end
  else if (k =? "p")%char then
    ret (mk_RunConfiguration (strtol (text_at_2 rest)) (nTtl c) (bRecv c) (sOvrAddr c))
  else if (k =? "r")%char then
    ret (mk_RunConfiguration (nPort c) (nTtl c) 1 (sOvrAddr c))
  else if (k =? "t")%char then
    ret (mk_RunConfiguration (nPort c) (strtol (text_at_2 rest)) (bRecv c) (sOvrAddr c))
  else if (k =? "?")%char then
    displayUsage ;; ret c
  else
    printf (unknown_text k) ;;
    ret c.

(** The text that follows the terminator of an argument: the next argument,
    or [beyond] after the last one. *)
Definition next_text (beyond : string) (args' : list string) : string :=
  match args' with
  | next :: _ => next
  | [] => beyond
  end.

(** The [for] loop over [argv[i]], [i >= 1]; [beyond] is the text in memory
    after the last argument. *)
Fixpoint parse_args (nAddrSize : Z) (beyond : string) (args : list string)
    (c : RunConfiguration) : proc RunConfiguration :=
  match args with
  | [] => ret c
  | arg :: args' =>
      c' <- parse_arg nAddrSize arg (next_text beyond args') c ;;
      parse_args nAddrSize beyond args' c'
  end.

(** [parseCommandLine]: [argv] is the whole argument vector, program name
    first, and [beyond] the text in memory after it; [pnPort], [pnTtl] and
    [sAddr] carry the caller's values in. *)
Definition parseCommandLine (argv : list string) (beyond : string) (pnPort pnTtl : Z)
    (sAddr : string) (nAddrSize : Z) : proc RunConfiguration :=
  parse_args nAddrSize beyond (tl argv) (mk_RunConfiguration pnPort pnTtl 0 sAddr).

(** The text of [printf("Sending %d\n", nValue)]. *)
Definition sending_text (nValue : Z) : string :=
  ("Sending " ++ fmt_d nValue ++ LF)%string.

(** The text of
    [printf("Received %d from '%s'\n", nValue, inet_ntoa(dst.sin_addr))]. *)
Definition received_text (nValue : Z) (dst : sockaddr_in) : string :=
  ("Received " ++ fmt_d nValue ++ " from '" ++ inet_ntoa (sin_addr dst) ++ "'" ++ LF)%string.

(** The text of
    [printf("recvfrom failed with error %d\n", WSAGetLastError())]. *)
Definition recv_failed_text (error : Z) : string :=
  ("recvfrom failed with error " ++ fmt_d error ++ LF)%string.

Section WithEnv.
Variable env : Env.

Definition initWinSock : proc Z :=
  let wVersionRequested := MAKEWORD 1 1 in
  emit (WSAStartup wVersionRequested) ;;
  let err := env_WSAStartup env in
  if negb (err =? 0) then
    printf ("WSAStartup failed with error: " ++ fmt_d err ++ LF)%string ;;
    ret 1
  else ret 0.

(** The Winsock calls, each recorded and answered by [env]. *)
Definition socket (af type protocol : Z) : proc Z :=
  emit (Socket af type protocol) ;; ret (wrap_int (env_socket env)).

Definition setsockopt (s : Z) (level : sockopt_level) (optname : sockopt_name)
    (optval : Z) : proc Z :=
  emit (Setsockopt s level optname optval) ;; ret (env_setsockopt env level optname).

Definition bind (s : Z) (name : sockaddr_in) : proc Z :=
  emit (Bind s name) ;; ret (env_bind env).

Definition sendto (i : nat) (s : Z) (buf : list Byte.byte) (dst : sockaddr_in) : proc Z :=
  emit (Sendto s buf dst) ;; ret (env_sendto env i).

Definition recvfrom (i : nat) (s : Z) (len : nat) : proc recv_outcome :=
  emit (Recvfrom s len) ;; ret (env_recvfrom env i len).

(** The [for (;;)] of [broadcast]; [i] counts the iterations made so far
    and [fuel] bounds the number of iterations observed. [nValue++] is
    written with the wrap-around of [int]. *)
Fixpoint broadcast_loop (fuel : nat) (i : nat) (s : Z) (dst : sockaddr_in) (nValue : Z)
  : proc unit :=
  match fuel with
  | O => stop Running
  | S fuel' =>
      printf (sending_text nValue) ;;
      r <- sendto i s (int_bytes nValue) dst ;;
      if r <? 0 then
        perror "Sending broadcast" ;; exit 1
      else
        let nValue := wrap_int (nValue + 1) in
        emit (Sleep 5000) ;;
        broadcast_loop fuel' (S i) s dst nValue
  end.

(** The text of [printf("Broadcast to %s:%d\n", inet_ntoa(dst.sin_addr),
    ntohs(dst.sin_port))]. *)
Definition broadcast_to_text (dst : sockaddr_in) : string :=
  ("Broadcast to " ++ inet_ntoa (sin_addr dst) ++ ":"
     ++ fmt_d (ntohs (sin_port dst)) ++ LF)%string.

(** The destination [broadcast] computes before its loop. *)
Definition destination (nPort : Z) (sAddr : string) : sockaddr_in :=
  mk_sockaddr_in AF_INET (htons nPort)
    (if 0 <? strlen sAddr then env_inet_addr env sAddr else htonl INADDR_BROADCAST).

Definition broadcast (fuel : nat) (s : Z) (nPort : Z) (sAddr : string) : proc unit :=
  let nValue := 0 in
  let dst := destination nPort sAddr in
  printf (broadcast_to_text dst) ;;
  broadcast_loop fuel 0 s dst nValue.

(** The [for (;;)] of [receive]; [i] counts the iterations made so far and
    [fuel] bounds the number of iterations observed. [recvfrom] is handed
    [sizeof(nValue)] bytes at [&nValue] and the address structure [dst]. *)
Fixpoint receive_loop (fuel : nat) (i : nat) (s : Z) (nValue : Z) : proc unit :=
  match fuel with
  | O => stop Running
  | S fuel' =>
      r <- recvfrom i s sizeof_int ;;
      let nValue := store_prefix (rv_data r) nValue in
      let dst := rv_from r in
      let result := rv_result r in
      if result <? 0 then
        (if result =? SOCKET_ERROR then
           printf (recv_failed_text (rv_error r))
         else ret tt) ;;
        exit 1
      else
        printf (received_text nValue dst) ;;
        receive_loop fuel' (S i) s nValue
  end.

Definition receive (fuel : nat) (s : Z) : proc unit :=
  let nValue := 0 in
  printf ("Waiting for data" ++ LF)%string ;;
  receive_loop fuel 0 s nValue.

(** [main]; every path ends in [exit]. *)
Definition main (fuel : nat) (argv : list string) : proc Z :=
  let on := 1 in
  c <- parseCommandLine argv (env_after_argv env) 40061 1 EmptyString 256 ;;
  r <- initWinSock ;;
  if negb (r =? 0) then exit 1 else
  s <- socket AF_INET SOCK_DGRAM 0 ;;
  if s <? 0 then perror "Setting up socket" ;; exit 1 else
  r <- setsockopt s SOL_SOCKET SO_BROADCAST on ;;
  if r <? 0 then perror "Setting broadcast" ;; exit 1 else
  r <- setsockopt s IPPROTO_IP IP_MULTICAST_TTL (nTtl c) ;;
  if r <? 0 then perror ("Setting TTL" ++ LF)%string ;; exit 1 else
  let sin := mk_sockaddr_in AF_INET (htons (nPort c)) (htonl INADDR_ANY) in
  r <- bind s sin ;;
  if r <? 0 then perror "Binding socket" ;; exit 1 else
  (if negb (bRecv c =? 0) then receive fuel s
   else broadcast fuel s (nPort c) (sOvrAddr c)) ;;
  exit 0.

End WithEnv.

End Broadcast.

(* ===================================================================== *)
(** * Notions of the specification *)
(* ===================================================================== *)

Module Spec.
Import CInt CLib Winsock Proc OS Broadcast.

(** ** Dotted-quad addresses *)

(** The parts of [s] between the occurrences of [sep]. *)
Fixpoint split_on (sep : ascii) (s : string) : list string :=
  match s with
  | EmptyString => [EmptyString]
  | String c r =>
      if (c =? sep)%char then EmptyString :: split_on sep r
      else match split_on sep r with
           | p :: ps => String c p :: ps
           | [] => [String c EmptyString]
           end
  end.

Fixpoint all_digits (s : string) : bool :=
  match s with
  | EmptyString => true
  | String c r =>
      match digit_value c with Some _ => all_digits r | None => false end
  end.

Definition leading_zero (p : string) : bool :=
  match p with
  | String c (String _ _) => (c =? "0")%char
  | _ => false
  end.

(** One to three decimal digits, without a superfluous leading zero,
    denoting at most 255. *)
Definition octet (p : string) : option Z :=
  if (1 <=? String.length p)%nat && (String.length p <=? 3)%nat
     && all_digits p && negb (leading_zero p) && (read_digits 0 p <=? 255)
  then Some (read_digits 0 p)
  else None.

(** The address a dotted quad [a.b.c.d] denotes, as [sin_addr] stores it
    ([a] at the lowest address). *)
Definition dotted_quad (s : string) : option Z :=
  match map octet (split_on "." s) with
  | [Some a; Some b; Some c; Some d] => Some (a + 256 * b + 65536 * c + 16777216 * d)
  | _ => None
  end.

Definition valid_dotted_quad (s : string) : bool :=
  match dotted_quad s with Some _ => true | None => false end.

(** An [inet_addr] that reads dotted quads and answers [INADDR_NONE] for
    anything else. *)
Definition inet_addr_dotted (s : string) : Z :=
  match dotted_quad s with Some a => a | None => INADDR_NONE end.

(** ** The invariant the specification gives for a RunConfiguration *)

Definition valid_port (p : Z) : Prop := 0 <= p <= 65535.

Definition override_present (c : RunConfiguration) : bool :=
  0 <? strlen (sOvrAddr c).

Definition config_invariant (c : RunConfiguration) : Prop :=
  0 <= nTtl c
  /\ valid_port (nPort c)
  /\ (override_present c = true -> valid_dotted_quad (sOvrAddr c) = true).

(** ** Reading an argument the way [parse_arg] does *)

(** An argument whose character at index 1 selects no [case] but
    [default]. *)
Definition unknown_flag (k : ascii) : bool :=
  negb ((k =? "a") || (k =? "p") || (k =? "r") || (k =? "t") || (k =? "?"))%char.

(** An argument that, taken alone, keeps the invariant: its number is a
    port after [p], is not negative after [t], and its text is empty or a
    dotted quad after [a]. *)
Definition keeps_invariant (arg : string) : bool :=
  match arg with
  | EmptyString => false
  | String _ rest =>
      let k := char_at_1 rest in
      let text := text_at_2 rest in
      if (k =? "a")%char then
        (text =? EmptyString)%string || valid_dotted_quad text
      else if (k =? "p")%char then
        (0 <=? strtol text) && (strtol text <=? 65535)
      else if (k =? "t")%char then
        0 <=? strtol text
      else true
  end.

(** ** Numeric texts, as [strtol] reads them *)

(** The text after the white space and the sign. *)
Definition numeral (s : string) : string :=
  match skip_space s with
  | String "-" r => r
  | String "+" r => r
  | r => r
  end.

Definition negative (s : string) : bool :=
  match skip_space s with
  | String "-" _ => true
  | _ => false
  end.


(** ** Observations on a run *)

(** The values carried by the datagrams a run sends, in order. *)
Definition sent_values (t : list event) : list Z :=
  flat_map (fun e => match e with Sendto _ buf _ => [bytes_int buf] | _ => [] end) t.

(** The events of the [i]-th iteration of the broadcaster, when its send
    succeeds and the counter holds [v]. *)
Definition send_iteration (s : Z) (dst : sockaddr_in) (v : Z) : list event :=
  [Printf (sending_text v); Sendto s (int_bytes v) dst; Sleep 5000].

(** The value of a 32-bit counter after [i] increments from 0. *)
Definition counter (i : nat) : Z := wrap_int (Z.of_nat i).

(** ** Statements about arguments *)

(** [arg] with its first character replaced by [c]. *)
Definition retag (c : ascii) (arg : string) : string :=
  match arg with
  | String _ rest => String c rest
  | EmptyString => EmptyString
  end.

(** "A help request short-circuits parsing": what follows the help
    request has no effect on the resolved configuration. *)
Definition help_short_circuits : Prop :=
  forall (before after : list string) (beyond : string),
    outcome (parseCommandLine ("broadcast"%string :: before ++ "-?"%string :: after)
               beyond 40061 1 EmptyString 256)
    = outcome (parseCommandLine ("broadcast"%string :: before ++ ["-?"%string])
                 beyond 40061 1 EmptyString 256).


(** The sum of the lengths of the parts of a split, each counted with the
    separator (or the end) that closes it. *)
Fixpoint closed_length (parts : list string) : nat :=
  match parts with
  | [] => 0
  | p :: ps => S (String.length p) + closed_length ps
  end.


(** Every datagram of a run goes to [dst]. *)
Definition sends_only_to (dst : sockaddr_in) (t : list event) : Prop :=
  Forall (fun e => match e with Sendto _ _ d => d = dst | _ => True end) t.

(** ** Socket provisioning *)

(** The four calls that provision the socket [s] for the configuration
    [c], in the order of [main]. *)
Definition provisioning_calls (s : Z) (c : RunConfiguration) : list event :=
  [ Socket AF_INET SOCK_DGRAM 0;
    Setsockopt s SOL_SOCKET SO_BROADCAST 1;
    Setsockopt s IPPROTO_IP IP_MULTICAST_TTL (nTtl c);
    Bind s (mk_sockaddr_in AF_INET (htons (nPort c)) (htonl INADDR_ANY)) ].

(** What these calls return, as [main] sees it. *)
Definition provisioning_results (env : Env) : list Z :=
  [ wrap_int (env_socket env);
    env_setsockopt env SOL_SOCKET SO_BROADCAST;
    env_setsockopt env IPPROTO_IP IP_MULTICAST_TTL;
    env_bind env ].

(** What [main] hands to [perror] when the call fails. *)
Definition provisioning_messages : list string :=
  [ "Setting up socket"; "Setting broadcast"; ("Setting TTL" ++ LF); "Binding socket" ]%string.

(** The position of the first negative result. *)
Fixpoint first_failure (results : list Z) : option nat :=
  match results with
  | [] => None
  | r :: rs => if r <? 0 then Some O else option_map S (first_failure rs)
  end.

(** The loop [main] dispatches to. *)
Definition dispatched_loop (env : Env) (fuel : nat) (s : Z) (c : RunConfiguration)
  : proc unit :=
  if negb (bRecv c =? 0) then receive env fuel s
  else broadcast env fuel s (nPort c) (sOvrAddr c).


(** ** Sample environments *)

(** An environment in which every call succeeds except the sends from the
    [k]-th on, whose network delivers [arrivals] and whose [inet_addr]
    reads dotted quads. *)
Definition sample_env (k : nat) (arrivals : nat -> arrival) : Env :=
  mk_Env 0 100 (fun _ _ => 0) 0
    (fun i => if (i <? k)%nat then 4 else SOCKET_ERROR)
    (fun i len => winsock_recvfrom len (arrivals i))
    inet_addr_dotted
    EmptyString.

Definition sample_source : sockaddr_in :=
  mk_sockaddr_in AF_INET (htons 50000) (inet_addr_dotted "10.0.0.7").

(** A network that delivers the counter values 0, 1, 2, ... from
    [sample_source]. *)
Definition counting_network (i : nat) : arrival :=
  Datagram (int_bytes (Z.of_nat i)) sample_source.

(** An environment like [sample_env] in which the [k]-th provisioning call
    fails. *)
Definition failing_env (k : nat) : Env :=
  mk_Env 0 (if (k =? 0)%nat then 0xffffffff else 100)
    (fun level _ =>
       match level with
       | SOL_SOCKET => if (k =? 1)%nat then SOCKET_ERROR else 0
       | IPPROTO_IP => if (k =? 2)%nat then SOCKET_ERROR else 0
       end)
    (if (k =? 3)%nat then SOCKET_ERROR else 0)
    (fun _ => 4)
    (fun i len => winsock_recvfrom len (counting_network i))
    inet_addr_dotted
    EmptyString.


(** A network whose first datagram carries five bytes. *)
Definition oversized_network (i : nat) : arrival :=
  Datagram [Byte.x07; Byte.x00; Byte.x00; Byte.x00; Byte.xff] sample_source.

(** A network that delivers the four bytes of 258, then the single byte 5,
    then counter values. *)
Definition short_network (i : nat) : arrival :=
  match i with
  | O => Datagram (int_bytes 258) sample_source
  | S O => Datagram [Byte.x05] sample_source
  | _ => counting_network i
  end.

(** ** The report of the receiver *)

(** "The reported sender address equals the packet's source address", the
    sender address being the pair of the IPv4 address and the UDP port:
    both can be read off the line the receiver prints. *)
Definition report_names_sender : Prop :=
  exists read : string -> Z * Z,
    forall (v : Z) (source : sockaddr_in),
      read (received_text v source) = (sin_addr source, sin_port source).


(** ** Reading a whole argument list *)

(** [argv[i][1]] and [&argv[i][2]] of an argument followed by [next]. *)
Definition flag_of (arg next : string) : ascii := char_at_1 (after_first arg next).

Definition text_of (arg next : string) : string := text_at_2 (after_first arg next).

(** The text of the last argument whose flag character is [k]. *)
Fixpoint last_text (k : ascii) (beyond : string) (args : list string) : option string :=
  match args with
  | [] => None
  | arg :: args' =>
      match last_text k beyond args' with
      | Some t => Some t
      | None =>
          if (flag_of arg (next_text beyond args') =? k)%char
          then Some (text_of arg (next_text beyond args'))
          else None
      end
  end.

(** Some argument has the flag character [r]. *)
Fixpoint requests_receiver (beyond : string) (args : list string) : bool :=
  match args with
  | [] => false
  | arg :: args' =>
      (flag_of arg (next_text beyond args') =? "r")%char || requests_receiver beyond args'
  end.

(** No argument is empty. *)
Definition none_empty (args : list string) : bool :=
  forallb (fun arg => negb (arg =? EmptyString)%string) args.

(** "The leading character of an argument is never examined": replacing
    the leading characters of the arguments by any others changes nothing
    in what the resolver does. *)
Definition leading_character_is_ignored : Prop :=
  forall (f : string -> ascii) (argv : list string) (beyond : string),
    parseCommandLine (map (fun x => retag (f x) x) argv) beyond 40061 1 EmptyString 256
    = parseCommandLine argv beyond 40061 1 EmptyString 256.

(** ** The destination of the broadcaster *)

(** The destinations of the datagrams a run sends, in order. *)
Definition sent_destinations (t : list event) : list sockaddr_in :=
  flat_map (fun e => match e with Sendto _ _ dst => [dst] | _ => [] end) t.

(** "The destination port is the configured port in every iteration":
    every datagram goes to the port [nPort]. *)
Definition destination_port_is_configured : Prop :=
  forall (env : Env) (fuel : nat) (s nPort : Z) (sAddr : string),
    Forall (fun dst => ntohs (sin_port dst) = nPort)
      (sent_destinations (trace (broadcast env fuel s nPort sAddr))).

(** ** Runs of the receiver *)

(** The value [nValue] of the receiver holds after [j] calls of
    [recvfrom]. *)
Fixpoint receiver_value (env : Env) (j : nat) : Z :=
  match j with
  | O => 0
  | S j' => store_prefix (rv_data (env_recvfrom env j' sizeof_int)) (receiver_value env j')
  end.

(** The events of the [j]-th iteration of the receiver, when its
    [recvfrom] does not fail. *)
Definition receive_iteration (env : Env) (s : Z) (j : nat) : list event :=
  [ Recvfrom s sizeof_int;
    Printf (received_text (receiver_value env (S j))
              (rv_from (env_recvfrom env j sizeof_int))) ].

(** ** Kinds of events *)

(** The events only the broadcaster loop can make, those only the receiver
    loop can make, and those that can precede the loops. *)
Definition is_send_event (e : event) : bool :=
  match e with
  | Sendto _ _ _ | Sleep _ => true
  | _ => false
  end.

Definition is_recv_event (e : event) : bool :=
  match e with
  | Recvfrom _ _ => true
  | _ => false
  end.

Definition is_setup_event (e : event) : bool :=
  match e with
  | Printf _ | Perror _ | WSAStartup _ | Socket _ _ _ | Setsockopt _ _ _ _ | Bind _ _ => true
  | _ => false
  end.

(** ** A broadcaster heard by a receiver *)

(** The payloads of the datagrams a run sends, in order. *)
Definition sent_payloads (t : list event) : list (list Byte.byte) :=
  flat_map (fun e => match e with Sendto _ buf _ => [buf] | _ => [] end) t.

(** A network that delivers, one per [recvfrom], the datagrams of the run
    [t] as coming from [source], and fails when there is none left. *)
Definition relay (t : list event) (source : sockaddr_in) (j : nat) : arrival :=
  match nth_error (sent_payloads t) j with
  | Some buf => Datagram buf source
  | None => Failure 0
  end.

End Spec.

Import CInt CLib Winsock Proc OS Broadcast Spec.
Local Open Scope proc_scope.

(* ===================================================================== *)
(** * Sequencing *)
(* ===================================================================== *)

Lemma proc_eta {A} (m : proc A) : m = (trace m, outcome m).
Proof. destruct m; reflexivity. Qed.

Lemma and_then_ret {A B} (t : list event) (a : A) (k : A -> proc B) :
  Proc.and_then (t, Ret a) k = (t ++ trace (k a), outcome (k a)).
Proof. unfold Proc.and_then. destruct (k a); reflexivity. Qed.

Lemma and_then_halt {A B} (t : list event) (h : halt) (k : A -> proc B) :
  Proc.and_then (t, Halt h) k = (t, Halt h).
Proof. reflexivity. Qed.

Lemma emit_then {B} (e : event) (k : unit -> proc B) :
  Proc.and_then (emit e) k = (e :: trace (k tt), outcome (k tt)).
Proof. unfold emit. rewrite and_then_ret. reflexivity. Qed.

Lemma printf_then {B} (text : string) (k : unit -> proc B) :
  Proc.and_then (printf text) k = (Printf text :: trace (k tt), outcome (k tt)).
Proof. apply emit_then. Qed.

Lemma ret_then {A B} (a : A) (k : A -> proc B) :
  Proc.and_then (ret a) k = k a.
Proof.
  unfold ret. rewrite and_then_ret. cbn [app]. symmetry. apply proc_eta.
Qed.

(** A recorded call that the oracle answers with [a]. *)
Lemma call_then {A B} (e : event) (a : A) (k : A -> proc B) :
  Proc.and_then (Proc.and_then (emit e) (fun _ => ret a)) k
  = (e :: trace (k a), outcome (k a)).
Proof.
  rewrite emit_then. cbn [trace outcome ret fst snd].
  rewrite and_then_ret. reflexivity.
Qed.

(* ===================================================================== *)
(** * The Configuration Resolver *)
(* ===================================================================== *)

Lemma parse_args_cons (n : Z) (beyond arg : string) (args : list string)
    (c : RunConfiguration) :
  parse_args n beyond (arg :: args) c =
  Proc.and_then (parse_arg n arg (next_text beyond args) c)
    (fun c' => parse_args n beyond args c').
Proof. reflexivity. Qed.

(** [parse_arg] on an argument that falls to [case '?'] or to [default]. *)
Lemma parse_arg_help (n : Z) (c0 : ascii) (rest next : string) (c : RunConfiguration) :
  char_at_1 rest = "?"%char ->
  parse_arg n (String c0 rest) next c = (trace displayUsage, Ret c).
Proof. intros H. unfold parse_arg. cbn [after_first]. rewrite H. reflexivity. Qed.

Lemma parse_arg_unknown (n : Z) (c0 : ascii) (rest next : string) (c : RunConfiguration) :
  unknown_flag (char_at_1 rest) = true ->
  parse_arg n (String c0 rest) next c = ([Printf (unknown_text (char_at_1 rest))], Ret c).
Proof.
  intros H. unfold parse_arg, unknown_flag in *. cbn [after_first].
  destruct (char_at_1 rest =? "a")%char; [discriminate|].
  destruct (char_at_1 rest =? "p")%char; [discriminate|].
  destruct (char_at_1 rest =? "r")%char; [discriminate|].
  destruct (char_at_1 rest =? "t")%char; [discriminate|].
  destruct (char_at_1 rest =? "?")%char; [discriminate|].
  reflexivity.
Qed.

(** ** Arguments are classified by their character at index 1 *)

Lemma parse_arg_retag (n : Z) (c : ascii) (arg next next' : string) (cfg : RunConfiguration) :
  (arg =? EmptyString)%string = false ->
  parse_arg n (retag c arg) next cfg = parse_arg n arg next' cfg.
Proof. destruct arg; [discriminate|reflexivity]. Qed.

Lemma parse_args_retag (n : Z) (beyond : string) (f : string -> ascii) (args : list string) :
  none_empty args = true ->
  forall cfg,
    parse_args n beyond (map (fun a => retag (f a) a) args) cfg
    = parse_args n beyond args cfg.
Proof.
  unfold none_empty.
  induction args as [|a args IH]; intros E cfg; [reflexivity|].
  cbn [forallb] in E. apply andb_true_iff in E. destruct E as [Ea Eargs].
  apply negb_true_iff in Ea.
  cbn [map]. rewrite !parse_args_cons.
  rewrite (parse_arg_retag n (f a) a _ (next_text beyond args) cfg Ea).
  destruct (parse_arg n a (next_text beyond args) cfg) as [t [c'|h]]; [|reflexivity].
  rewrite !and_then_ret, IH by exact Eargs. reflexivity.
Qed.

(** C10, as stated, fails: an empty argument is classified by the byte after
    its terminator, which is the leading character of the argument that
    follows; replacing that leading character changes what the resolver
    does (after an empty argument, [pr] sets the port to 0 where [-r] leaves
    it alone). *)
Lemma C10_leading_character_after_empty_argument : ~ leading_character_is_ignored.
Proof.
  intros H.
  specialize (H (fun _ => "p"%char) ["broadcast"; EmptyString; "-r"]%string EmptyString).
  vm_compute in H. discriminate H.
Qed.

(** C10, amended. An argument is classified by its character at index 1
    alone. In an argument list without an empty argument no leading
    character is ever read: replacing the leading characters by any others
    leaves output and configuration unchanged. An argument such as [xr] sets
    receiver mode exactly as [-r] does, [xp123] sets the port to 123 exactly
    as [-p123] does, and an argument of one character is reported as unknown
    with the terminator as its flag character; in each case the parse goes
    on with the arguments that follow. An empty argument is classified by
    what follows its terminator: it acts as the argument after it (or the
    text after the last argument) with one more character in front. *)
Theorem C10_classified_by_index_1 (n : Z) (beyond : string) :
  (forall (f : string -> ascii) (argv : list string) (p t : Z) (a : string),
      none_empty (tl argv) = true ->
      parseCommandLine (map (fun x => retag (f x) x) argv) beyond p t a n
      = parseCommandLine argv beyond p t a n)
  /\ (forall (c : ascii) (args : list string) (cfg : RunConfiguration),
         parse_args n beyond (String c "r" :: args) cfg
         = parse_args n beyond args
             (mk_RunConfiguration (nPort cfg) (nTtl cfg) 1 (sOvrAddr cfg)))
  /\ (forall (c : ascii) (args : list string) (cfg : RunConfiguration),
         parse_args n beyond (String c "p123" :: args) cfg
         = parse_args n beyond args
             (mk_RunConfiguration 123 (nTtl cfg) (bRecv cfg) (sOvrAddr cfg)))
  /\ (forall (c : ascii) (args : list string) (cfg : RunConfiguration),
         parse_args n beyond (String c EmptyString :: args) cfg
         = (Printf (unknown_text NUL) :: trace (parse_args n beyond args cfg),
            outcome (parse_args n beyond args cfg)))
  /\ (forall (c : ascii) (args : list string) (cfg : RunConfiguration),
         parse_args n beyond (EmptyString :: args) cfg
         = parse_args n beyond (String c (next_text beyond args) :: args) cfg)
  /\ (forall (prog : string) (c : ascii) (p t : Z) (a : string),
         parseCommandLine [prog; String c "r"] beyond p t a n
         = ([], Ret (mk_RunConfiguration p t 1 a))
         /\ parseCommandLine [prog; String c "p123"] beyond p t a n
            = ([], Ret (mk_RunConfiguration 123 t 0 a))
         /\ parseCommandLine [prog; String c EmptyString] beyond p t a n
            = ([Printf (unknown_text NUL)], Ret (mk_RunConfiguration p t 0 a))).
Proof.
  split; [|split; [|split; [|split; [|split]]]].
  - intros f argv p t a E. unfold parseCommandLine.
    destruct argv as [|a0 argv]; [reflexivity|].
    cbn [map tl] in *. apply parse_args_retag. exact E.
  - intros c args cfg. rewrite parse_args_cons.
    change (parse_arg n (String c "r") (next_text beyond args) cfg)
      with (ret (mk_RunConfiguration (nPort cfg) (nTtl cfg) 1 (sOvrAddr cfg))).
    apply ret_then.
  - intros c args cfg. rewrite parse_args_cons.
    change (parse_arg n (String c "p123") (next_text beyond args) cfg)
      with (ret (mk_RunConfiguration 123 (nTtl cfg) (bRecv cfg) (sOvrAddr cfg))).
    apply ret_then.
  - intros c args cfg. rewrite parse_args_cons.
    change (parse_arg n (String c EmptyString) (next_text beyond args) cfg)
      with ([Printf (unknown_text NUL)], Ret cfg).
    rewrite and_then_ret. reflexivity.
  - intros c args cfg. rewrite !parse_args_cons. reflexivity.
  - intros prog c p t a. repeat split.
Qed.

Lemma C10_classified_by_index_1_witness :
  parseCommandLine ["xroadcast"; "xr"; "xp123"; "x"]%string EmptyString 40061 1 EmptyString 256
  = parseCommandLine ["broadcast"; "-r"; "-p123"; "-"]%string EmptyString
      40061 1 EmptyString 256
  /\ parseCommandLine ["broadcast"; "-r"; "-p123"; "-"]%string EmptyString
       40061 1 EmptyString 256
     = ([Printf (unknown_text NUL)], Ret (mk_RunConfiguration 123 1 1 EmptyString)).
Proof.
  split; [|reflexivity].
  apply (proj1 (C10_classified_by_index_1 256 EmptyString) (fun _ => "x"%char)
           ["broadcast"; "-r"; "-p123"; "-"]%string 40061 1 EmptyString).
  reflexivity.
Defined.

(** ** Unknown flags and help requests *)

(** C8, as stated, fails: the arguments after [-?] are still parsed. *)
Lemma C8_help_does_not_short_circuit : ~ help_short_circuits.
Proof.
  intros H. specialize (H [] ["-r"%string] EmptyString). vm_compute in H.
  discriminate H.
Qed.

(** C8, amended. An argument that selects [case '?'] prints the usage text,
    one that selects [default] prints the unknown-argument line; in both
    cases the argument itself halts nothing, the configuration is left as it
    was, and parsing goes on with the arguments that follow. *)
Theorem C8_unknown_and_help_are_skipped
    (n : Z) (beyond : string) (c0 : ascii) (rest : string) (args : list string)
    (cfg : RunConfiguration) :
  char_at_1 rest = "?"%char \/ unknown_flag (char_at_1 rest) = true ->
  parse_args n beyond (String c0 rest :: args) cfg
  = ((if (char_at_1 rest =? "?")%char then trace displayUsage
      else [Printf (unknown_text (char_at_1 rest))])
       ++ trace (parse_args n beyond args cfg),
     outcome (parse_args n beyond args cfg)).
Proof.
  intros [H|H]; rewrite parse_args_cons.
  - rewrite (parse_arg_help n c0 rest _ cfg H), and_then_ret, H. reflexivity.
  - rewrite (parse_arg_unknown n c0 rest _ cfg H), and_then_ret.
    replace (char_at_1 rest =? "?")%char with false; [reflexivity|].
    unfold unknown_flag in H. destruct (char_at_1 rest =? "?")%char; [|reflexivity].
    rewrite !orb_true_r in H. discriminate H.
Qed.

Lemma C8_unknown_and_help_are_skipped_witness :
  parse_args 256 EmptyString ["-?"%string; "-z"%string; "-r"%string]
    (mk_RunConfiguration 40061 1 0 EmptyString)
  = (trace displayUsage ++ [Printf (unknown_text "z")],
     Ret (mk_RunConfiguration 40061 1 1 EmptyString)).
Proof.
  rewrite (C8_unknown_and_help_are_skipped 256 EmptyString "-" "?"
             ["-z"%string; "-r"%string]
             (mk_RunConfiguration 40061 1 0 EmptyString) (or_introl eq_refl)).
  rewrite (C8_unknown_and_help_are_skipped 256 EmptyString "-" "z" ["-r"%string]
             (mk_RunConfiguration 40061 1 0 EmptyString) (or_intror eq_refl)).
  reflexivity.
Defined.

(** ** Numeric overrides *)

Lemma strtol_unfold (s : string) :
  strtol s
  = clamp_long (if negative s then - read_digits 0 (numeral s)
                else read_digits 0 (numeral s)).
Proof.
  unfold strtol, negative, numeral.
  destruct (skip_space s) as [|c r]; [reflexivity|].
  destruct c as [[] [] [] [] [] [] [] []]; reflexivity.
Qed.

Lemma clamp_long_range (z : Z) : LONG_MIN <= clamp_long z <= LONG_MAX.
Proof.
  unfold clamp_long, LONG_MIN, LONG_MAX, INT_MIN, INT_MAX.
  destruct (Z.ltb_spec z (- 2 ^ 31)); [lia|].
  destruct (Z.ltb_spec (2 ^ 31 - 1) z); lia.
Qed.

Lemma strtol_range (s : string) : LONG_MIN <= strtol s <= LONG_MAX.
Proof. rewrite strtol_unfold. apply clamp_long_range. Qed.


Lemma read_digits_of_uint_acc (d : Decimal.uint) :
  forall acc : positive,
    read_digits (Z.pos acc) (NilEmpty.string_of_uint d) = Z.pos (Pos.of_uint_acc d acc).
Proof.
  induction d; intros acc; cbn [NilEmpty.string_of_uint read_digits Pos.of_uint_acc];
    [reflexivity| ..];
    match goal with
    | |- context [digit_value ?ch] =>
        let v := eval vm_compute in (digit_value ch) in
        change (digit_value ch) with v; cbv iota beta
    end;
    rewrite <- IHd; f_equal; lia.
Qed.

Lemma read_digits_of_uint (d : Decimal.uint) :
  read_digits 0 (NilEmpty.string_of_uint d) = Z.of_uint d.
Proof.
  unfold Z.of_uint.
  induction d; cbn [NilEmpty.string_of_uint read_digits Pos.of_uint];
    [reflexivity| ..];
    match goal with
    | |- context [digit_value ?ch] =>
        let v := eval vm_compute in (digit_value ch) in
        change (digit_value ch) with v; cbv iota beta
    end;
    [exact IHd | ..];
    match goal with
    | |- read_digits ?z _ = _ =>
        let p := eval vm_compute in z in change z with p
    end;
    rewrite read_digits_of_uint_acc; reflexivity.
Qed.

(** A decimal numeral that is not empty starts with a digit: [strtol] skips
    nothing and reads no sign. *)
Lemma strtol_of_uint (d : Decimal.uint) :
  d <> Decimal.Nil ->
  strtol (NilEmpty.string_of_uint d) = clamp_long (Z.of_uint d)
  /\ strtol (String "-" (NilEmpty.string_of_uint d)) = clamp_long (- Z.of_uint d).
Proof.
  intros N. rewrite <- read_digits_of_uint. split.
  - destruct d; [contradiction| ..]; reflexivity.
  - destruct d; [contradiction| ..]; reflexivity.
Qed.





(** ** The invariant of a RunConfiguration *)

Lemma split_on_closed_length (sep : ascii) (s : string) :
  closed_length (split_on sep s) = S (String.length s).
Proof.
  induction s as [|c r IH]; [reflexivity|].
  cbn [split_on String.length].
  destruct (c =? sep)%char.
  - cbn [closed_length String.length]. rewrite IH. reflexivity.
  - destruct (split_on sep r) as [|p ps].
    + cbn [closed_length] in IH. discriminate IH.
    + cbn [closed_length String.length] in *. lia.
Qed.

Lemma octet_length (p : string) (v : Z) :
  octet p = Some v -> (String.length p <= 3)%nat.
Proof.
  unfold octet. intros H.
  destruct (Nat.leb_spec (String.length p) 3) as [L|L]; [exact L|].
  rewrite andb_false_r in H. discriminate H.
Qed.

Lemma dotted_quad_length (s : string) :
  valid_dotted_quad s = true -> (String.length s <= 15)%nat.
Proof.
  unfold valid_dotted_quad, dotted_quad. intros H.
  pose proof (split_on_closed_length "." s) as L.
  destruct (split_on "." s) as [|p1 [|p2 [|p3 [|p4 [|p5 ps]]]]];
    cbn [map] in H; try discriminate H.
  - destruct (octet p1); discriminate H.
  - destruct (octet p1), (octet p2); discriminate H.
  - destruct (octet p1), (octet p2), (octet p3); discriminate H.
  - destruct (octet p1) eqn:E1; [|discriminate H].
    destruct (octet p2) eqn:E2; [|discriminate H].
    destruct (octet p3) eqn:E3; [|discriminate H].
    destruct (octet p4) eqn:E4; [|discriminate H].
    apply octet_length in E1, E2, E3, E4.
    cbn [closed_length] in L. lia.
  - destruct (octet p1), (octet p2), (octet p3), (octet p4), (octet p5);
      discriminate H.
Qed.

Lemma parse_arg_keeps_invariant (arg next : string) (cfg : RunConfiguration) :
  keeps_invariant arg = true ->
  config_invariant cfg ->
  exists out cfg', parse_arg 256 arg next cfg = (out, Ret cfg') /\ config_invariant cfg'.
Proof.
  intros K (Httl & Hport & Hovr).
  destruct arg as [|c0 rest]; [discriminate K|].
  unfold keeps_invariant in K. unfold parse_arg. cbn [after_first].
  destruct (char_at_1 rest =? "a")%char.
  { assert (L : strlen (text_at_2 rest) < 256).
    { apply orb_true_iff in K. destruct K as [K|K].
      - apply String.eqb_eq in K. rewrite K. reflexivity.
      - apply dotted_quad_length in K. unfold strlen. lia. }
    unfold strcpy_s. destruct (Z.ltb_spec (strlen (text_at_2 rest)) 256); [|lia].
    eexists _, _. split; [reflexivity|].
    repeat split; cbn [nTtl nPort sOvrAddr]; try assumption; try apply Hport.
    unfold override_present. cbn [sOvrAddr]. intros P.
    apply orb_true_iff in K. destruct K as [K|K]; [|exact K].
    apply String.eqb_eq in K. rewrite K in P. discriminate P. }
  destruct (char_at_1 rest =? "p")%char.
  { apply andb_true_iff in K. destruct K as [K1 K2].
    apply Z.leb_le in K1, K2.
    eexists _, _. split; [reflexivity|].
    repeat split; cbn [nTtl nPort]; assumption. }
  destruct (char_at_1 rest =? "r")%char.
  { eexists _, _. split; [reflexivity|].
    repeat split; cbn [nTtl nPort]; try assumption; apply Hport. }
  destruct (char_at_1 rest =? "t")%char.
  { apply Z.leb_le in K.
    eexists _, _. split; [reflexivity|].
    repeat split; cbn [nTtl nPort]; try assumption; apply Hport. }
  destruct (char_at_1 rest =? "?")%char.
  { eexists _, _. split; [reflexivity|]. repeat split; try assumption; apply Hport. }
  eexists _, _. split; [reflexivity|]. repeat split; try assumption; apply Hport.
Qed.

Lemma parse_args_keep_invariant (beyond : string) (args : list string) :
  forall cfg : RunConfiguration,
    forallb keeps_invariant args = true ->
    config_invariant cfg ->
    exists out cfg',
      parse_args 256 beyond args cfg = (out, Ret cfg') /\ config_invariant cfg'.
Proof.
  induction args as [|a args IH]; intros cfg K I.
  - exists [], cfg. split; [reflexivity|exact I].
  - cbn [forallb] in K. apply andb_true_iff in K. destruct K as [Ka Kargs].
    destruct (parse_arg_keeps_invariant a (next_text beyond args) cfg Ka I)
      as (out1 & cfg1 & E1 & I1).
    destruct (IH cfg1 Kargs I1) as (out2 & cfg2 & E2 & I2).
    exists (out1 ++ out2), cfg2. split; [|exact I2].
    rewrite parse_args_cons, E1, and_then_ret, E2. reflexivity.
Qed.

(** C5, as stated, fails: nothing is validated, so a negative hop limit, a
    number that is no port and a text that is no address all reach the
    RunConfiguration. *)
Lemma C5_invariant_can_fail :
  exists c : RunConfiguration,
    outcome (parseCommandLine ["broadcast"; "-t-5"; "-p70000"; "-ahello"]%string
               EmptyString 40061 1 EmptyString 256) = Ret c
    /\ ~ config_invariant c.
Proof.
  eexists. split; [vm_compute; reflexivity|].
  intros (H & _). cbn [nTtl] in H. lia.
Qed.

(** C5, amended. The resolver validates nothing; the RunConfiguration it
    produces satisfies the invariant (hop limit not negative, port within
    0..65535, override absent or a dotted quad) whenever each argument keeps
    it: every number after [p] is a port, every number after [t] is not
    negative, every text after [a] is empty or a dotted quad. For such
    arguments the resolver does produce a RunConfiguration. *)
Theorem C5_invariant_for_valid_arguments (argv : list string) (beyond : string) :
  forallb keeps_invariant (tl argv) = true ->
  exists (out : list event) (c : RunConfiguration),
    parseCommandLine argv beyond 40061 1 EmptyString 256 = (out, Ret c)
    /\ config_invariant c.
Proof.
  intros K. unfold parseCommandLine.
  apply parse_args_keep_invariant; [exact K|].
  repeat split; cbn [nTtl nPort]; try lia.
  intros P. discriminate P.
Qed.

Lemma C5_invariant_for_valid_arguments_witness :
  exists (out : list event) (c : RunConfiguration),
    parseCommandLine ["broadcast"; "-r"; "-p41000"; "-t3"; "-a192.168.50.255"; "-q"]%string
      EmptyString 40061 1 EmptyString 256 = (out, Ret c)
    /\ config_invariant c.
Proof.
  apply (C5_invariant_for_valid_arguments
           ["broadcast"; "-r"; "-p41000"; "-t3"; "-a192.168.50.255"; "-q"]%string
           EmptyString).
  vm_compute. reflexivity.
Defined.
(* ===================================================================== *)
(** * Object representations *)
(* ===================================================================== *)

Lemma wrap_int_range (z : Z) : INT_MIN <= wrap_int z <= INT_MAX.
Proof.
  unfold wrap_int, INT_MIN, INT_MAX.
  pose proof (Z.mod_pos_bound (z + 2 ^ 31) (2 ^ 32) ltac:(lia)). lia.
Qed.

Lemma wrap_int_id (z : Z) : INT_MIN <= z <= INT_MAX -> wrap_int z = z.
Proof.
  unfold wrap_int, INT_MIN, INT_MAX. intros H.
  rewrite Z.mod_small; lia.
Qed.

Lemma wrap_int_mod (z : Z) : wrap_int (z mod 2 ^ 32) = wrap_int z.
Proof.
  unfold wrap_int.
  rewrite <- (Zplus_mod_idemp_l z (2 ^ 31) (2 ^ 32)). reflexivity.
Qed.

Lemma wrap_int_succ (z : Z) : wrap_int (wrap_int z + 1) = wrap_int (z + 1).
Proof.
  unfold wrap_int.
  replace ((z + 2 ^ 31) mod 2 ^ 32 - 2 ^ 31 + 1 + 2 ^ 31)
    with ((z + 2 ^ 31) mod 2 ^ 32 + 1) by lia.
  rewrite Zplus_mod_idemp_l. f_equal. f_equal. lia.
Qed.

Lemma byte_to_of_Z (z : Z) : byte_to_Z (byte_of_Z z) = z mod 256.
Proof.
  unfold byte_to_Z, byte_of_Z.
  change 255 with (Z.ones 8). rewrite Z.land_ones by lia.
  change (2 ^ 8) with 256.
  pose proof (Z.mod_pos_bound z 256 ltac:(lia)) as B.
  destruct (Byte.of_N (Z.to_N (z mod 256))) as [b|] eqn:E.
  - apply Byte.to_of_N in E. rewrite E. lia.
  - apply Byte.of_N_None_iff in E. lia.
Qed.

Lemma byte_to_Z_range (b : Byte.byte) : 0 <= byte_to_Z b < 256.
Proof.
  unfold byte_to_Z. pose proof (Byte.to_N_bounded b). lia.
Qed.

Lemma byte_of_to_Z (b : Byte.byte) : byte_of_Z (byte_to_Z b) = b.
Proof.
  unfold byte_of_Z.
  change 255 with (Z.ones 8). rewrite Z.land_ones by lia.
  change (2 ^ 8) with 256.
  rewrite Z.mod_small by apply byte_to_Z_range.
  unfold byte_to_Z. rewrite N2Z.id, Byte.of_to_N. reflexivity.
Qed.

Lemma le_value_int_bytes (v : Z) : le_value (int_bytes v) = v mod 2 ^ 32.
Proof.
  unfold int_bytes. cbn [le_value].
  rewrite !byte_to_of_Z, !Z.shiftr_div_pow2 by lia.
  change (2 ^ 8) with 256. change (2 ^ 16) with (256 * 256).
  change (2 ^ 24) with (256 * 256 * 256).
  change (2 ^ 32) with (256 * 256 * 256 * 256).
  rewrite <- !Z.div_div by lia.
  set (q1 := v / 256). set (q2 := q1 / 256). set (q3 := q2 / 256).
  pose proof (Z.div_mod v 256 ltac:(lia)) as E1. fold q1 in E1.
  pose proof (Z.div_mod q1 256 ltac:(lia)) as E2. fold q2 in E2.
  pose proof (Z.div_mod q2 256 ltac:(lia)) as E3. fold q3 in E3.
  pose proof (Z.div_mod q3 256 ltac:(lia)) as E4.
  pose proof (Z.mod_pos_bound v 256 ltac:(lia)).
  pose proof (Z.mod_pos_bound q1 256 ltac:(lia)).
  pose proof (Z.mod_pos_bound q2 256 ltac:(lia)).
  pose proof (Z.mod_pos_bound q3 256 ltac:(lia)).
  apply (Z.mod_unique _ _ (q3 / 256)); lia.
Qed.

(** Storing an [int] and reading it back. *)
Lemma bytes_int_int_bytes (v : Z) : bytes_int (int_bytes v) = wrap_int v.
Proof. unfold bytes_int. rewrite le_value_int_bytes. apply wrap_int_mod. Qed.

(** Reading four bytes as an [int] and storing it gives the bytes back. *)
Lemma int_bytes_bytes_int (b0 b1 b2 b3 : Byte.byte) :
  int_bytes (bytes_int [b0; b1; b2; b3]) = [b0; b1; b2; b3].
Proof.
  assert (B : forall k, byte_of_Z (Z.shiftr (bytes_int [b0; b1; b2; b3]) k)
                        = byte_of_Z (Z.shiftr (le_value [b0; b1; b2; b3]) k)
                        \/ ~ (0 <= k <= 24)).
  { intros k. destruct (Z_le_dec 0 k); [|right; lia].
    destruct (Z_le_dec k 24); [left|right; lia].
    unfold byte_of_Z. do 2 f_equal.
    change 255 with (Z.ones 8). rewrite !Z.land_ones by lia.
    rewrite !Z.shiftr_div_pow2 by lia.
    unfold bytes_int, wrap_int.
    set (x := le_value [b0; b1; b2; b3]).
    pose proof (Z.div_mod (x + 2 ^ 31) (2 ^ 32) ltac:(lia)) as E.
    replace ((x + 2 ^ 31) mod 2 ^ 32 - 2 ^ 31)
      with (x + (- ((x + 2 ^ 31) / 2 ^ 32)) * 2 ^ 32) by lia.
    replace (2 ^ 32) with (2 ^ (32 - k) * 2 ^ k)
      by (rewrite <- Z.pow_add_r by lia; f_equal; lia).
    rewrite Z.mul_assoc, Z.div_add by (apply Z.pow_nonzero; lia).
    replace (2 ^ (32 - k)) with (2 ^ (24 - k) * 2 ^ 8)
      by (rewrite <- Z.pow_add_r by lia; f_equal; lia).
    rewrite Z.mul_assoc, Z.mod_add by lia. reflexivity. }
  unfold int_bytes.
  replace (bytes_int [b0; b1; b2; b3]) with (Z.shiftr (bytes_int [b0; b1; b2; b3]) 0)
    at 1 by apply Z.shiftr_0_r.
  destruct (B 0) as [-> |]; [|lia]. destruct (B 8) as [-> |]; [|lia].
  destruct (B 16) as [-> |]; [|lia]. destruct (B 24) as [-> |]; [|lia].
  rewrite Z.shiftr_0_r.
  pose proof (byte_to_Z_range b0). pose proof (byte_to_Z_range b1).
  pose proof (byte_to_Z_range b2). pose proof (byte_to_Z_range b3).
  assert (D : forall a q, 0 <= a < 256 -> byte_of_Z (a + 256 * q) = byte_of_Z a).
  { intros a q Ha. unfold byte_of_Z. do 2 f_equal.
    change 255 with (Z.ones 8). rewrite !Z.land_ones by lia.
    change (2 ^ 8) with 256. rewrite Z.mul_comm, Z.mod_add by lia. reflexivity. }
  rewrite !Z.shiftr_div_pow2 by lia. cbn [le_value].
  rewrite D by assumption. rewrite byte_of_to_Z.
  set (x := byte_to_Z b0 + 256 * (byte_to_Z b1 + 256 * (byte_to_Z b2 + 256 * (byte_to_Z b3 + 256 * 0)))).
  assert (X8 : x / 2 ^ 8 = byte_to_Z b1 + 256 * (byte_to_Z b2 + 256 * byte_to_Z b3)).
  { change (2 ^ 8) with 256. symmetry. apply (Z.div_unique _ _ _ (byte_to_Z b0)); subst x; lia. }
  assert (X16 : x / 2 ^ 16 = byte_to_Z b2 + 256 * byte_to_Z b3).
  { symmetry. apply (Z.div_unique _ _ _ (byte_to_Z b0 + 256 * byte_to_Z b1)); subst x; lia. }
  assert (X24 : x / 2 ^ 24 = byte_to_Z b3 + 256 * 0).
  { symmetry.
    apply (Z.div_unique _ _ _ (byte_to_Z b0 + 256 * byte_to_Z b1 + 65536 * byte_to_Z b2));
      subst x; lia. }
  rewrite X8, X16, X24, !D by assumption.
  rewrite !byte_of_to_Z. reflexivity.
Qed.

(* ===================================================================== *)
(** * The Broadcaster Loop *)
(* ===================================================================== *)

Section Broadcaster.
Variable env : Env.
Variables (s : Z) (dst : sockaddr_in).

Lemma counter_succ (i : nat) : wrap_int (counter i + 1) = counter (S i).
Proof.
  unfold counter. rewrite wrap_int_succ, Nat2Z.inj_succ. reflexivity.
Qed.

Lemma counter_small (i : nat) : Z.of_nat i < 2 ^ 31 -> counter i = Z.of_nat i.
Proof.
  intros H. apply wrap_int_id. unfold INT_MIN, INT_MAX. lia.
Qed.

(** One iteration whose send succeeds. *)
Lemma broadcast_loop_sent (fuel i : nat) (v : Z) :
  0 <= env_sendto env i ->
  broadcast_loop env (S fuel) i s dst v
  = (send_iteration s dst v
       ++ trace (broadcast_loop env fuel (S i) s dst (wrap_int (v + 1))),
     outcome (broadcast_loop env fuel (S i) s dst (wrap_int (v + 1)))).
Proof.
  intros H. cbn [broadcast_loop].
  rewrite printf_then. unfold sendto. rewrite call_then.
  destruct (Z.ltb_spec (env_sendto env i) 0) as [L|L]; [lia|].
  rewrite emit_then. reflexivity.
Qed.

(** One iteration whose send fails: nothing follows the report. *)
Lemma broadcast_loop_failed (fuel i : nat) (v : Z) :
  env_sendto env i < 0 ->
  broadcast_loop env (S fuel) i s dst v
  = ([Printf (sending_text v); Sendto s (int_bytes v) dst; Perror "Sending broadcast"],
     Halt (Exited 1)).
Proof.
  intros H. cbn [broadcast_loop].
  rewrite printf_then. unfold sendto. rewrite call_then.
  destruct (Z.ltb_spec (env_sendto env i) 0) as [L|L]; [|lia].
  reflexivity.
Qed.

(** [N] iterations whose sends succeed. *)
Lemma broadcast_loop_successes (N : nat) :
  forall fuel i : nat,
    (forall j, (i <= j < i + N)%nat -> 0 <= env_sendto env j) ->
    broadcast_loop env (N + fuel) i s dst (counter i)
    = (flat_map (fun j => send_iteration s dst (counter j)) (seq i N)
         ++ trace (broadcast_loop env fuel (i + N) s dst (counter (i + N))),
       outcome (broadcast_loop env fuel (i + N) s dst (counter (i + N)))).
Proof.
  induction N as [|N IH]; intros fuel i H.
  - rewrite Nat.add_0_r. cbn [Nat.add seq flat_map app]. apply proc_eta.
  - cbn [Nat.add]. rewrite broadcast_loop_sent by (apply H; lia).
    rewrite counter_succ, IH by (intros j Hj; apply H; lia).
    cbn [trace outcome fst snd seq flat_map].
    replace (S i + N)%nat with (i + S N)%nat by lia.
    rewrite <- app_assoc. reflexivity.
Qed.

Lemma broadcast_loop_never_returns (fuel : nat) :
  forall (i : nat) (v : Z),
    outcome (broadcast_loop env fuel i s dst v) = Halt Running
    \/ outcome (broadcast_loop env fuel i s dst v) = Halt (Exited 1).
Proof.
  induction fuel as [|fuel IH]; intros i v; [left; reflexivity|].
  destruct (Z.lt_ge_cases (env_sendto env i) 0) as [L|L].
  - rewrite broadcast_loop_failed by exact L. right. reflexivity.
  - rewrite broadcast_loop_sent by exact L. apply IH.
Qed.

Lemma broadcast_loop_sends_to_dst (fuel : nat) :
  forall (i : nat) (v : Z),
    sends_only_to dst (trace (broadcast_loop env fuel i s dst v)).
Proof.
  unfold sends_only_to.
  induction fuel as [|fuel IH]; intros i v; [constructor|].
  destruct (Z.lt_ge_cases (env_sendto env i) 0) as [L|L].
  - rewrite broadcast_loop_failed by exact L. cbn [trace fst].
    repeat constructor.
  - rewrite broadcast_loop_sent by exact L. cbn [trace fst send_iteration app].
    repeat constructor. apply IH.
Qed.

Lemma sent_values_iterations (l : list nat) :
  sent_values (flat_map (fun j => send_iteration s dst (counter j)) l) = map counter l.
Proof.
  unfold sent_values.
  induction l as [|j l IH]; [reflexivity|].
  cbn [flat_map map send_iteration app] in *. rewrite IH.
  rewrite bytes_int_int_bytes. unfold counter. rewrite wrap_int_id by apply wrap_int_range.
  reflexivity.
Qed.

End Broadcaster.

Lemma sent_values_app (t1 t2 : list event) :
  sent_values (t1 ++ t2) = sent_values t1 ++ sent_values t2.
Proof. unfold sent_values. apply flat_map_app. Qed.

Lemma map_counter_small (N : nat) :
  Z.of_nat N <= 2 ^ 31 -> map counter (seq 0 N) = map Z.of_nat (seq 0 N).
Proof.
  intros H. apply map_ext_in. intros i Hi. apply in_seq in Hi.
  apply counter_small. lia.
Qed.

(** C1. In every run of the broadcaster the counter starts at 0, and when
    the first [N] sends succeed the run begins, after the line that names
    the destination, with [N] iterations of which the [i]-th prints and
    sends the 32-bit counter value [i] and then sleeps 5000 ms; so the first
    [N] values sent are the counter values of 0, 1, ..., N-1, which are these
    numbers themselves as long as they fit an [int]. If the next send fails,
    the run ends there with the failure reported and status 1: the counter
    is not incremented, nothing is sent and no sleep follows. *)
Theorem C1_counter_sequence
    (env : Env) (N fuel : nat) (s nPort : Z) (sAddr : string) :
  (forall i, (i < N)%nat -> 0 <= env_sendto env i) ->
  (N <= fuel)%nat ->
  exists rest : list event,
    trace (broadcast env fuel s nPort sAddr)
    = Printf (broadcast_to_text (destination env nPort sAddr))
        :: flat_map (fun i => send_iteration s (destination env nPort sAddr) (counter i))
             (seq 0 N)
        ++ rest
    /\ firstn N (sent_values (trace (broadcast env fuel s nPort sAddr)))
       = map counter (seq 0 N)
    /\ (Z.of_nat N <= 2 ^ 31 -> map counter (seq 0 N) = map Z.of_nat (seq 0 N))
    /\ ((N < fuel)%nat -> env_sendto env N < 0 ->
        rest = [ Printf (sending_text (counter N));
                 Sendto s (int_bytes (counter N)) (destination env nPort sAddr);
                 Perror "Sending broadcast" ]
        /\ outcome (broadcast env fuel s nPort sAddr) = Halt (Exited 1)).
Proof.
  intros Hok Hfuel.
  set (dst := destination env nPort sAddr).
  assert (E : broadcast env fuel s nPort sAddr
              = (Printf (broadcast_to_text dst)
                   :: flat_map (fun i => send_iteration s dst (counter i)) (seq 0 N)
                   ++ trace (broadcast_loop env (fuel - N) N s dst (counter N)),
                 outcome (broadcast_loop env (fuel - N) N s dst (counter N)))).
  { unfold broadcast. fold dst. rewrite printf_then.
    replace fuel with (N + (fuel - N))%nat at 1 2 by lia.
    change 0 with (counter 0).
    rewrite (broadcast_loop_successes env s dst N (fuel - N) 0)
      by (intros j Hj; apply Hok; lia).
    reflexivity. }
  exists (trace (broadcast_loop env (fuel - N) N s dst (counter N))).
  rewrite E. cbn [trace outcome fst snd].
  split; [reflexivity|]. split; [|split].
  - change (Printf (broadcast_to_text dst) :: ?l) with ([Printf (broadcast_to_text dst)] ++ l).
    rewrite !sent_values_app, sent_values_iterations. cbn [sent_values flat_map app].
    rewrite firstn_app, length_map, length_seq, Nat.sub_diag, firstn_O, app_nil_r.
    apply firstn_all2. rewrite length_map, length_seq. lia.
  - apply map_counter_small.
  - intros Hlt Hfail.
    replace (fuel - N)%nat with (S (fuel - N - 1)) by lia.
    rewrite broadcast_loop_failed by exact Hfail. split; reflexivity.
Qed.

Lemma C1_counter_sequence_witness :
  exists rest : list event,
    trace (broadcast (sample_env 3 counting_network) 5 100 40061 EmptyString)
    = Printf (broadcast_to_text
                (destination (sample_env 3 counting_network) 40061 EmptyString))
        :: flat_map
             (fun i => send_iteration 100
                         (destination (sample_env 3 counting_network) 40061 EmptyString)
                         (counter i))
             (seq 0 3)
        ++ rest
    /\ firstn 3 (sent_values
                   (trace (broadcast (sample_env 3 counting_network) 5 100 40061 EmptyString)))
       = [0; 1; 2]
    /\ outcome (broadcast (sample_env 3 counting_network) 5 100 40061 EmptyString)
       = Halt (Exited 1).
Proof.
  assert (H : forall i, (i < 3)%nat -> 0 <= env_sendto (sample_env 3 counting_network) i).
  { intros i Hi. destruct i as [|[|[|i]]]; cbn; lia. }
  destruct (C1_counter_sequence (sample_env 3 counting_network) 3 5 100 40061 EmptyString
              H ltac:(lia)) as (rest & T & V & Small & Failed).
  exists rest. split; [exact T|]. split.
  - rewrite V. apply Small. lia.
  - apply Failed; [lia|]. reflexivity.
Defined.

(** ** The destination *)

Lemma all_from_spec (p : Z -> bool) (n : nat) :
  forall z : Z,
    all_from n z p = true ->
    forall k : Z, z <= k < z + Z.of_nat n -> p k = true.
Proof.
  induction n as [|n IH]; intros z H k Hk; [lia|].
  cbn [all_from] in H. apply andb_true_iff in H. destruct H as [Hz Hn].
  destruct (Z.eq_dec k z) as [->|Hne]; [exact Hz|].
  apply (IH (z + 1) Hn). lia.
Qed.

Lemma htons_involutive_on_u_short :
  all_from (Z.to_nat (2 ^ 16)) 0 (fun v => htons (htons v) =? v) = true.
Proof. vm_compute. reflexivity. Qed.

Lemma ntohs_htons (x : Z) : ntohs (htons x) = x mod 2 ^ 16.
Proof.
  assert (M : htons x = htons (x mod 2 ^ 16)).
  { unfold htons, to_u_short. rewrite Z.mod_mod by lia. reflexivity. }
  unfold ntohs. rewrite M.
  pose proof (Z.mod_pos_bound x (2 ^ 16) ltac:(lia)) as B.
  apply Z.eqb_eq.
  apply (all_from_spec (fun v => htons (htons v) =? v) _ 0 htons_involutive_on_u_short).
  rewrite Z2Nat.id by lia. lia.
Qed.

(* ===================================================================== *)
(** * The Receiver Loop *)
(* ===================================================================== *)

Section Receiver.
Variable env : Env.
Variable s : Z.

(** One iteration whose [recvfrom] does not fail. *)
Lemma receive_loop_received (fuel i : nat) (v : Z) :
  0 <= rv_result (env_recvfrom env i sizeof_int) ->
  receive_loop env (S fuel) i s v
  = (Recvfrom s sizeof_int
       :: Printf (received_text
                    (store_prefix (rv_data (env_recvfrom env i sizeof_int)) v)
                    (rv_from (env_recvfrom env i sizeof_int)))
       :: trace (receive_loop env fuel (S i) s
                   (store_prefix (rv_data (env_recvfrom env i sizeof_int)) v)),
     outcome (receive_loop env fuel (S i) s
                (store_prefix (rv_data (env_recvfrom env i sizeof_int)) v))).
Proof.
  intros H. cbn [receive_loop]. unfold recvfrom. rewrite call_then.
  destruct (Z.ltb_spec (rv_result (env_recvfrom env i sizeof_int)) 0) as [L|L]; [lia|].
  rewrite printf_then. reflexivity.
Qed.

(** One iteration whose [recvfrom] fails. *)
Lemma receive_loop_failed (fuel i : nat) (v : Z) :
  rv_result (env_recvfrom env i sizeof_int) < 0 ->
  receive_loop env (S fuel) i s v
  = (Recvfrom s sizeof_int
       :: (if rv_result (env_recvfrom env i sizeof_int) =? SOCKET_ERROR
           then [Printf (recv_failed_text (rv_error (env_recvfrom env i sizeof_int)))]
           else []),
     Halt (Exited 1)).
Proof.
  intros H. cbn [receive_loop]. unfold recvfrom. rewrite call_then.
  destruct (Z.ltb_spec (rv_result (env_recvfrom env i sizeof_int)) 0) as [L|L]; [|lia].
  destruct (rv_result (env_recvfrom env i sizeof_int) =? SOCKET_ERROR); reflexivity.
Qed.

Lemma receive_loop_never_returns (fuel : nat) :
  forall (i : nat) (v : Z),
    outcome (receive_loop env fuel i s v) = Halt Running
    \/ outcome (receive_loop env fuel i s v) = Halt (Exited 1).
Proof.
  induction fuel as [|fuel IH]; intros i v; [left; reflexivity|].
  destruct (Z.lt_ge_cases (rv_result (env_recvfrom env i sizeof_int)) 0) as [L|L].
  - rewrite receive_loop_failed by exact L. right. reflexivity.
  - rewrite receive_loop_received by exact L. apply IH.
Qed.

(** Every [recvfrom] of the loop is handed a buffer of [sizeof(int)]
    bytes. *)
Lemma receive_loop_buffer_length (fuel : nat) :
  forall (i : nat) (v : Z),
    Forall (fun e => match e with Recvfrom _ len => len = sizeof_int | _ => True end)
      (trace (receive_loop env fuel i s v)).
Proof.
  induction fuel as [|fuel IH]; intros i v; [constructor|].
  destruct (Z.lt_ge_cases (rv_result (env_recvfrom env i sizeof_int)) 0) as [L|L].
  - rewrite receive_loop_failed by exact L. cbn [trace fst].
    constructor; [reflexivity|].
    destruct (rv_result (env_recvfrom env i sizeof_int) =? SOCKET_ERROR);
      repeat constructor.
  - rewrite receive_loop_received by exact L. cbn [trace fst].
    constructor; [reflexivity|]. constructor; [exact I|]. apply IH.
Qed.

End Receiver.

(** ** Addresses in dotted form *)

Lemma split_on_single_app (sep : ascii) (p r : string) :
  split_on sep p = [p] ->
  split_on sep (p ++ String sep r)%string = p :: split_on sep r.
Proof.
  induction p as [|c p IH]; intros H.
  - cbn [append split_on]. rewrite Ascii.eqb_refl. reflexivity.
  - cbn [append split_on] in *.
    destruct (c =? sep)%char; [discriminate H|].
    pose proof (split_on_closed_length sep p) as N.
    destruct (split_on sep p) as [|q qs] eqn:E; [discriminate N|].
    injection H as Hq Hqs. subst q qs.
    rewrite IH by reflexivity. reflexivity.
Qed.

Lemma fmt_d_of_bytes :
  all_from 256 0
    (fun b =>
       match split_on "." (fmt_d b) with
       | [p] => (p =? fmt_d b)%string
       | _ => false
       end
       && match octet (fmt_d b) with
          | Some v => v =? b
          | None => false
          end)
  = true.
Proof. vm_compute. reflexivity. Qed.

(** The decimal form of a byte has no dot and reads back as that byte. *)
Lemma fmt_d_byte (b : Z) :
  0 <= b < 256 ->
  split_on "." (fmt_d b) = [fmt_d b] /\ octet (fmt_d b) = Some b.
Proof.
  intros B.
  pose proof (all_from_spec _ _ _ fmt_d_of_bytes b ltac:(lia)) as H.
  cbv beta in H. apply andb_true_iff in H. destruct H as [H1 H2]. split.
  - destruct (split_on "." (fmt_d b)) as [|p [|q qs]]; try discriminate H1.
    apply String.eqb_eq in H1. rewrite H1. reflexivity.
  - destruct (octet (fmt_d b)) as [v|]; [|discriminate H2].
    apply Z.eqb_eq in H2. rewrite H2. reflexivity.
Qed.

Lemma addr_byte_mod (a k : Z) : addr_byte a k = Z.shiftr a (8 * k) mod 256.
Proof.
  unfold addr_byte. change 255 with (Z.ones 8). rewrite Z.land_ones by lia.
  reflexivity.
Qed.

Lemma addr_bytes_sum (a : Z) :
  addr_byte a 0 + 256 * addr_byte a 1 + 65536 * addr_byte a 2 + 16777216 * addr_byte a 3
  = to_u_long a.
Proof.
  pose proof (le_value_int_bytes a) as E.
  unfold int_bytes in E. cbn [le_value] in E. rewrite !byte_to_of_Z in E.
  rewrite !addr_byte_mod.
  change (8 * 0) with 0. change (8 * 1) with 8.
  change (8 * 2) with 16. change (8 * 3) with 24.
  rewrite Z.shiftr_0_r. unfold to_u_long. lia.
Qed.

(** [inet_ntoa] writes the dotted quad of the address it is given. *)
Lemma inet_ntoa_dotted_quad (a : Z) : dotted_quad (inet_ntoa a) = Some (to_u_long a).
Proof.
  assert (B : forall k, 0 <= addr_byte a k < 256).
  { intros k. rewrite addr_byte_mod. apply Z.mod_pos_bound. lia. }
  destruct (fmt_d_byte _ (B 0)) as [S0 O0]. destruct (fmt_d_byte _ (B 1)) as [S1 O1].
  destruct (fmt_d_byte _ (B 2)) as [S2 O2]. destruct (fmt_d_byte _ (B 3)) as [S3 O3].
  unfold dotted_quad, inet_ntoa.
  cbn [append].
  rewrite !split_on_single_app by assumption. rewrite S3.
  cbn [map]. rewrite O0, O1, O2, O3. f_equal. apply addr_bytes_sum.
Qed.

(** C3, as stated, fails: the line the receiver prints does not depend on
    the source port, so the pair of address and port cannot be read off
    it. *)
Lemma C3_port_is_not_reported : ~ report_names_sender.
Proof.
  intros [read H].
  pose proof (H 0 (mk_sockaddr_in AF_INET 1 5)) as H1.
  pose proof (H 0 (mk_sockaddr_in AF_INET 2 5)) as H2.
  change (received_text 0 (mk_sockaddr_in AF_INET 2 5))
    with (received_text 0 (mk_sockaddr_in AF_INET 1 5)) in H2.
  rewrite H1 in H2. cbn [sin_addr sin_port] in H2. discriminate H2.
Qed.

Lemma store_prefix_exact (payload : list Byte.byte) (v : Z) :
  List.length payload = sizeof_int -> store_prefix payload v = bytes_int payload.
Proof.
  intros L. unfold store_prefix.
  rewrite firstn_all2 by lia. rewrite L. cbn [skipn sizeof_int int_bytes].
  rewrite app_nil_r. reflexivity.
Qed.

(** C3, amended. When [recvfrom] delivers a datagram of exactly four bytes,
    the iteration prints one line, then the loop goes on: the line carries,
    in decimal, the [int] whose four bytes are the payload, and, as a dotted
    quad, the IPv4 address of the source of the datagram (the dotted quad
    denotes that address and no other). The source port is captured with the
    address but is not part of the report. *)
Theorem C3_exact_datagram_reported
    (env : Env) (s : Z) (fuel i : nat) (v : Z)
    (payload : list Byte.byte) (source : sockaddr_in) :
  List.length payload = sizeof_int ->
  env_recvfrom env i sizeof_int = winsock_recvfrom sizeof_int (Datagram payload source) ->
  receive_loop env (S fuel) i s v
  = (Recvfrom s sizeof_int
       :: Printf (received_text (bytes_int payload) source)
       :: trace (receive_loop env fuel (S i) s (bytes_int payload)),
     outcome (receive_loop env fuel (S i) s (bytes_int payload)))
  /\ received_text (bytes_int payload) source
     = ("Received " ++ fmt_d (bytes_int payload)
          ++ " from '" ++ inet_ntoa (sin_addr source) ++ "'" ++ LF)%string
  /\ int_bytes (bytes_int payload) = payload
  /\ dotted_quad (inet_ntoa (sin_addr source)) = Some (to_u_long (sin_addr source)).
Proof.
  intros L E. split; [|split; [reflexivity|split]].
  - assert (R : env_recvfrom env i sizeof_int
                = mk_recv_outcome (Z.of_nat (List.length payload)) payload source 0).
    { rewrite E. unfold winsock_recvfrom. rewrite L, Nat.leb_refl. reflexivity. }
    rewrite receive_loop_received by (rewrite R; cbn [rv_result]; lia).
    rewrite R. cbn [rv_data rv_from]. rewrite store_prefix_exact by exact L.
    reflexivity.
  - destruct payload as [|b0 [|b1 [|b2 [|b3 [|b4 bs]]]]]; try discriminate L.
    apply int_bytes_bytes_int.
  - apply inet_ntoa_dotted_quad.
Qed.

Lemma C3_exact_datagram_reported_witness :
  receive_loop (sample_env 0 counting_network) 1 0 100 0
  = ([Recvfrom 100 sizeof_int; Printf (received_text 0 sample_source)], Halt Running)
  /\ received_text 0 sample_source
     = ("Received 0 from '10.0.0.7'" ++ LF)%string.
Proof.
  destruct (C3_exact_datagram_reported (sample_env 0 counting_network) 100 0 0 0
              (int_bytes 0) sample_source eq_refl eq_refl) as (R & T & _ & _).
  split; [exact R | exact T].
Defined.

(** C6, as stated, fails on Winsock: a datagram of five bytes makes
    [recvfrom] fail, and the receiver reports the error and exits with
    status 1 instead of looping on. *)
Lemma C6_oversized_datagram_is_fatal :
  receive (sample_env 0 oversized_network) 3 100
  = ([ Printf ("Waiting for data" ++ LF)%string;
       Recvfrom 100 4;
       Printf ("recvfrom failed with error 10040" ++ LF)%string ],
     Halt (Exited 1)).
Proof. vm_compute. reflexivity. Qed.

Lemma store_prefix_short (data : list Byte.byte) (v : Z) :
  (List.length data <= sizeof_int)%nat ->
  int_bytes (store_prefix data v) = data ++ skipn (List.length data) (int_bytes v).
Proof.
  intros L. unfold store_prefix. rewrite firstn_all2 by exact L.
  unfold sizeof_int in L.
  destruct data as [|b0 [|b1 [|b2 [|b3 [|b4 bs]]]]];
    cbn [List.length skipn int_bytes app] in *; try lia;
    apply int_bytes_bytes_int.
Qed.

(** C6, amended. Every [recvfrom] of the receiver is handed a buffer of four
    bytes, so no more than four bytes of a datagram are ever stored. A
    datagram larger than that makes [recvfrom] fail ([WSAEMSGSIZE]); as after
    any failure of [recvfrom], the receiver prints the error code and exits
    with status 1. A datagram of at most four bytes is accepted: the value is
    reported and the loop goes on; the bytes of the value that a shorter
    datagram does not cover keep what they held before (zero at first, then
    the bytes of the previous value). *)
Theorem C6_datagrams_of_other_sizes
    (env : Env) (s : Z) (fuel i : nat) (v : Z)
    (payload : list Byte.byte) (source : sockaddr_in) :
  env_recvfrom env i sizeof_int = winsock_recvfrom sizeof_int (Datagram payload source) ->
  Forall (fun e => match e with Recvfrom _ len => len = sizeof_int | _ => True end)
    (trace (receive env fuel s))
  /\ ((sizeof_int < List.length payload)%nat ->
      receive_loop env (S fuel) i s v
      = ([Recvfrom s sizeof_int; Printf (recv_failed_text WSAEMSGSIZE)], Halt (Exited 1)))
  /\ ((List.length payload <= sizeof_int)%nat ->
      receive_loop env (S fuel) i s v
      = (Recvfrom s sizeof_int
           :: Printf (received_text (store_prefix payload v) source)
           :: trace (receive_loop env fuel (S i) s (store_prefix payload v)),
         outcome (receive_loop env fuel (S i) s (store_prefix payload v)))
      /\ int_bytes (store_prefix payload v)
         = payload ++ skipn (List.length payload) (int_bytes v)).
Proof.
  intros E. split; [|split].
  - unfold receive. rewrite printf_then. cbn [trace fst].
    constructor; [exact I|]. apply receive_loop_buffer_length.
  - intros L.
    assert (R : env_recvfrom env i sizeof_int
                = mk_recv_outcome SOCKET_ERROR (firstn sizeof_int payload) source WSAEMSGSIZE).
    { rewrite E. unfold winsock_recvfrom.
      destruct (Nat.leb_spec (List.length payload) sizeof_int); [lia|reflexivity]. }
    rewrite receive_loop_failed by (rewrite R; cbn [rv_result]; reflexivity).
    rewrite R. reflexivity.
  - intros L.
    assert (R : env_recvfrom env i sizeof_int
                = mk_recv_outcome (Z.of_nat (List.length payload)) payload source 0).
    { rewrite E. unfold winsock_recvfrom.
      destruct (Nat.leb_spec (List.length payload) sizeof_int); [reflexivity|lia]. }
    split; [|apply store_prefix_short; exact L].
    rewrite receive_loop_received by (rewrite R; cbn [rv_result]; lia).
    rewrite R. reflexivity.
Qed.

Lemma C6_datagrams_of_other_sizes_witness :
  receive_loop (sample_env 0 oversized_network) 3 0 100 0
  = ([Recvfrom 100 sizeof_int; Printf (recv_failed_text WSAEMSGSIZE)], Halt (Exited 1))
  /\ int_bytes (store_prefix [Byte.x05] 258) = [Byte.x05; Byte.x01; Byte.x00; Byte.x00]
  /\ bytes_int [Byte.x05; Byte.x01; Byte.x00; Byte.x00] = 261.
Proof.
  split; [|split].
  - apply (C6_datagrams_of_other_sizes (sample_env 0 oversized_network) 100 2 0 0
             [Byte.x07; Byte.x00; Byte.x00; Byte.x00; Byte.xff] sample_source eq_refl).
    unfold sizeof_int. simpl. lia.
  - apply (C6_datagrams_of_other_sizes (sample_env 0 short_network) 100 2 1 258
             [Byte.x05] sample_source eq_refl).
    unfold sizeof_int. simpl. lia.
  - reflexivity.
Defined.
(* ===================================================================== *)
(** * The destination of the broadcaster *)
(* ===================================================================== *)

Lemma sent_destinations_app (t1 t2 : list event) :
  sent_destinations (t1 ++ t2) = sent_destinations t1 ++ sent_destinations t2.
Proof. unfold sent_destinations. apply flat_map_app. Qed.

Lemma sent_destinations_iterations (s : Z) (dst : sockaddr_in) (l : list nat) :
  sent_destinations (flat_map (fun j => send_iteration s dst (counter j)) l)
  = repeat dst (List.length l).
Proof.
  unfold sent_destinations.
  induction l as [|j l IH]; [reflexivity|].
  cbn [flat_map send_iteration app List.length repeat] in *. rewrite IH. reflexivity.
Qed.

Lemma sends_only_to_destinations (dst : sockaddr_in) (t : list event) :
  sends_only_to dst t -> Forall (fun d => d = dst) (sent_destinations t).
Proof.
  unfold sends_only_to, sent_destinations.
  induction 1 as [|e t He Ht IH]; [constructor|].
  cbn [flat_map]. destruct e; cbn [app]; try exact IH.
  constructor; [exact He|exact IH].
Qed.

Lemma read_digits_nonneg (s : string) :
  forall acc : Z, 0 <= acc -> 0 <= read_digits acc s.
Proof.
  induction s as [|c r IH]; intros acc H; [exact H|].
  cbn [read_digits]. unfold digit_value.
  destruct ((48 <=? Z.of_nat (nat_of_ascii c)) && (Z.of_nat (nat_of_ascii c) <=? 57)) eqn:E;
    [|exact H].
  apply andb_true_iff in E. destruct E as [E1 E2]. apply Z.leb_le in E1.
  apply IH. lia.
Qed.

Lemma octet_range (p : string) (v : Z) : octet p = Some v -> 0 <= v <= 255.
Proof.
  unfold octet.
  destruct ((1 <=? String.length p)%nat && (String.length p <=? 3)%nat
            && all_digits p && negb (leading_zero p)); cbn [andb]; [|discriminate].
  destruct (Z.leb_spec (read_digits 0 p) 255) as [L|L]; [|discriminate].
  intros H. injection H as <-. split; [apply read_digits_nonneg; lia|exact L].
Qed.

(** The address a dotted quad denotes fits 32 bits. *)
Lemma dotted_quad_range (s : string) (a : Z) :
  dotted_quad s = Some a -> to_u_long a = a.
Proof.
  unfold dotted_quad. intros H.
  destruct (split_on "." s) as [|p1 [|p2 [|p3 [|p4 [|p5 ps]]]]];
    cbn [map] in H; try discriminate H.
  - destruct (octet p1); discriminate H.
  - destruct (octet p1), (octet p2); discriminate H.
  - destruct (octet p1), (octet p2), (octet p3); discriminate H.
  - destruct (octet p1) as [v1|] eqn:E1; [|discriminate H].
    destruct (octet p2) as [v2|] eqn:E2; [|discriminate H].
    destruct (octet p3) as [v3|] eqn:E3; [|discriminate H].
    destruct (octet p4) as [v4|] eqn:E4; [|discriminate H].
    apply octet_range in E1, E2, E3, E4.
    assert (A : a = v1 + 256 * v2 + 65536 * v3 + 16777216 * v4) by congruence.
    unfold to_u_long. change (2 ^ 32) with 4294967296. apply Z.mod_small. lia.
  - destruct (octet p1), (octet p2), (octet p3), (octet p4), (octet p5);
      discriminate H.
Qed.

(** C2, as stated, fails: the port is an [int] that [htons] reduces to 16
    bits, so with the configured port 70000 every datagram goes to port
    4464; and an override that is no address ([hello], for which
    [inet_addr] answers [INADDR_NONE]) sends to 255.255.255.255. *)
Lemma C2_destination_not_as_configured :
  ~ destination_port_is_configured
  /\ main (sample_env 1 counting_network) 1 ["broadcast"; "-p70000"; "-ahello"]%string
     = ([ WSAStartup 257;
          Socket AF_INET SOCK_DGRAM 0;
          Setsockopt 100 SOL_SOCKET SO_BROADCAST 1;
          Setsockopt 100 IPPROTO_IP IP_MULTICAST_TTL 1;
          Bind 100 (mk_sockaddr_in AF_INET (htons 4464) 0);
          Printf ("Broadcast to 255.255.255.255:4464" ++ LF)%string;
          Printf ("Sending 0" ++ LF)%string;
          Sendto 100 (int_bytes 0) (mk_sockaddr_in AF_INET (htons 4464) INADDR_BROADCAST);
          Sleep 5000 ],
        Halt Running).
Proof.
  split; [|vm_compute; reflexivity].
  intros H.
  specialize (H (sample_env 1 counting_network) 1%nat 100 70000 EmptyString).
  assert (E : sent_destinations
                (trace (broadcast (sample_env 1 counting_network) 1 100 70000 EmptyString))
              = [mk_sockaddr_in AF_INET (htons 70000) INADDR_BROADCAST])
    by (vm_compute; reflexivity).
  rewrite E in H. inversion H as [|d l Hd Hl].
  vm_compute in Hd. discriminate Hd.
Qed.

(** C2, amended. The destination is computed once, before the loop, from
    the override and the port alone: while the sends succeed, the run of the
    broadcaster announces that one destination and then sends every datagram
    to it, and no datagram of any run goes anywhere else. Its address is
    what [inet_addr] returns for the override when the override is not
    empty, and the all-ones address 255.255.255.255 otherwise: for an
    override that is a dotted quad and that [inet_addr] reads as such, it is
    that address, whose dotted form denotes the same address; for an
    override [inet_addr] cannot read ([INADDR_NONE]) it is the all-ones
    address. Its port is [htons] of the configured port, that is the
    configured port reduced modulo 65536 in network byte order, and the
    configured port itself when that is a UDP port. *)
Theorem C2_destination_resolved_once
    (env : Env) (N fuel : nat) (s nPort : Z) (sAddr : string) :
  (forall i, (i < N)%nat -> 0 <= env_sendto env i) ->
  (N <= fuel)%nat ->
  let dst :=
    mk_sockaddr_in AF_INET (htons nPort)
      (if (sAddr =? EmptyString)%string then INADDR_BROADCAST
       else env_inet_addr env sAddr) in
  (exists rest : list event,
      trace (broadcast env fuel s nPort sAddr)
      = Printf (broadcast_to_text dst)
          :: flat_map (fun i => send_iteration s dst (counter i)) (seq 0 N) ++ rest)
  /\ firstn N (sent_destinations (trace (broadcast env fuel s nPort sAddr)))
     = repeat dst N
  /\ Forall (fun d => d = dst) (sent_destinations (trace (broadcast env fuel s nPort sAddr)))
  /\ inet_ntoa INADDR_BROADCAST = "255.255.255.255"%string
  /\ ntohs (sin_port dst) = nPort mod 2 ^ 16
  /\ (valid_port nPort -> ntohs (sin_port dst) = nPort)
  /\ (forall a : Z,
         sAddr <> EmptyString ->
         dotted_quad sAddr = Some a ->
         env_inet_addr env sAddr = a ->
         sin_addr dst = a /\ dotted_quad (inet_ntoa (sin_addr dst)) = Some a)
  /\ (sAddr <> EmptyString ->
      env_inet_addr env sAddr = INADDR_NONE ->
      sin_addr dst = INADDR_BROADCAST).
Proof.
  intros Hok Hfuel dst.
  assert (D : destination env nPort sAddr = dst).
  { unfold destination, dst. destruct sAddr; reflexivity. }
  pose proof (broadcast_loop_successes env s dst N (fuel - N) 0) as E.
  replace (N + (fuel - N))%nat with fuel in E by lia.
  specialize (E ltac:(intros j Hj; apply Hok; lia)). cbn [Nat.add] in E.
  change (counter 0) with 0 in E at 1.
  assert (T : trace (broadcast env fuel s nPort sAddr)
              = [Printf (broadcast_to_text dst)]
                  ++ flat_map (fun i => send_iteration s dst (counter i)) (seq 0 N)
                  ++ trace (broadcast_loop env (fuel - N) N s dst (counter N))).
  { unfold broadcast. rewrite D, printf_then, E. reflexivity. }
  split; [eexists; exact T|]. split; [|split; [|split; [|split; [|split; [|split]]]]].
  - rewrite T, !sent_destinations_app, sent_destinations_iterations, length_seq.
    cbn [sent_destinations flat_map app].
    rewrite firstn_app, repeat_length, Nat.sub_diag, firstn_O, app_nil_r.
    apply firstn_all2. rewrite repeat_length. lia.
  - apply sends_only_to_destinations.
    unfold broadcast. rewrite D, printf_then. cbn [trace fst].
    constructor; [exact I|]. apply broadcast_loop_sends_to_dst.
  - reflexivity.
  - cbn [dst sin_port]. apply ntohs_htons.
  - intros V. cbn [dst sin_port]. rewrite ntohs_htons.
    unfold valid_port in V. apply Z.mod_small. lia.
  - intros a Ne Hq Ha. cbn [dst sin_addr].
    destruct (String.eqb_spec sAddr EmptyString) as [Em|_]; [contradiction|].
    rewrite Ha, inet_ntoa_dotted_quad, (dotted_quad_range sAddr a Hq).
    split; reflexivity.
  - intros Ne Ha. cbn [dst sin_addr].
    destruct (String.eqb_spec sAddr EmptyString) as [Em|_]; [contradiction|].
    rewrite Ha. reflexivity.
Qed.

Lemma C2_destination_resolved_once_witness :
  (exists rest : list event,
      trace (broadcast (sample_env 3 counting_network) 5 100 40061 "192.168.50.255")
      = Printf ("Broadcast to 192.168.50.255:40061" ++ LF)%string
          :: flat_map
               (fun i => send_iteration 100
                           (mk_sockaddr_in AF_INET (htons 40061)
                              (inet_addr_dotted "192.168.50.255"))
                           (counter i))
               (seq 0 3)
          ++ rest)
  /\ firstn 3 (sent_destinations
                (trace (broadcast (sample_env 3 counting_network) 5 100 40061
                          "192.168.50.255")))
     = repeat (mk_sockaddr_in AF_INET (htons 40061) (inet_addr_dotted "192.168.50.255")) 3
  /\ ntohs (htons 40061) = 40061.
Proof.
  assert (H : forall i, (i < 3)%nat -> 0 <= env_sendto (sample_env 3 counting_network) i).
  { intros i Hi. destruct i as [|[|[|i]]]; cbn; lia. }
  destruct (C2_destination_resolved_once (sample_env 3 counting_network) 3 5 100 40061
              "192.168.50.255" H ltac:(lia)) as (T & F & _ & _ & _ & P & _).
  split; [exact T|]. split; [exact F|].
  apply P. unfold valid_port. lia.
Defined.

(* ===================================================================== *)
(** * The Process Driver *)
(* ===================================================================== *)

Lemma parse_arg_halts (n : Z) (arg next : string) (cfg : RunConfiguration) (h : halt) :
  outcome (parse_arg n arg next cfg) = Halt h -> h = InvalidParameter.
Proof.
  unfold parse_arg. generalize (after_first arg next) as rest. intros rest.
  destruct (char_at_1 rest =? "a")%char.
  { destruct (strcpy_s n (text_at_2 rest)); cbn; intros H; [discriminate H|].
    injection H as <-. reflexivity. }
  destruct (char_at_1 rest =? "p")%char; [cbn; discriminate|].
  destruct (char_at_1 rest =? "r")%char; [cbn; discriminate|].
  destruct (char_at_1 rest =? "t")%char; [cbn; discriminate|].
  destruct (char_at_1 rest =? "?")%char; cbn; discriminate.
Qed.

Lemma parse_args_halts (n : Z) (beyond : string) (args : list string) :
  forall (cfg : RunConfiguration) (h : halt),
    outcome (parse_args n beyond args cfg) = Halt h -> h = InvalidParameter.
Proof.
  induction args as [|a args IH]; intros cfg h; [cbn; discriminate|].
  rewrite parse_args_cons.
  destruct (parse_arg n a (next_text beyond args) cfg) as [t [c'|h']] eqn:E.
  - rewrite and_then_ret. cbn [outcome snd]. apply IH.
  - rewrite and_then_halt. cbn [outcome snd]. intros H. injection H as <-.
    apply (parse_arg_halts n a (next_text beyond args) cfg). rewrite E. reflexivity.
Qed.

Section Driver.
Variable env : Env.
Variable fuel : nat.
Variable argv : list string.

(** [main] when the arguments cannot be parsed to the end. *)
Lemma main_parse_halted (out : list event) (h : halt) :
  parseCommandLine argv (env_after_argv env) 40061 1 EmptyString 256 = (out, Halt h) ->
  main env fuel argv = (out, Halt h).
Proof. intros P. unfold main. rewrite P. reflexivity. Qed.

(** [main] when [WSAStartup] fails. *)
Lemma main_startup_failed (out : list event) (c : RunConfiguration) :
  parseCommandLine argv (env_after_argv env) 40061 1 EmptyString 256 = (out, Ret c) ->
  env_WSAStartup env <> 0 ->
  main env fuel argv
  = (out ++ [ WSAStartup (MAKEWORD 1 1);
              Printf ("WSAStartup failed with error: "
                        ++ fmt_d (env_WSAStartup env) ++ LF)%string ],
     Halt (Exited 1)).
Proof.
  intros P W. unfold main. rewrite P, and_then_ret. unfold initWinSock.
  destruct (Z.eqb_spec (env_WSAStartup env) 0) as [E|E]; [contradiction|].
  reflexivity.
Qed.

Lemma dispatched_loop_never_returns (s : Z) (c : RunConfiguration) :
  outcome (dispatched_loop env fuel s c) = Halt Running
  \/ outcome (dispatched_loop env fuel s c) = Halt (Exited 1).
Proof.
  unfold dispatched_loop. destruct (negb (bRecv c =? 0)).
  - unfold receive. rewrite printf_then. apply receive_loop_never_returns.
  - unfold broadcast. rewrite printf_then. apply broadcast_loop_never_returns.
Qed.

Lemma and_then_halted {A B} (m : proc A) (k : A -> proc B) (h : halt) :
  outcome m = Halt h -> outcome (Proc.and_then m k) = Halt h.
Proof.
  destruct m as [t r]. cbn [outcome snd]. intros ->. reflexivity.
Qed.

Lemma main_outcome :
  outcome (main env fuel argv) = Halt (Exited 1)
  \/ outcome (main env fuel argv) = Halt Running
  \/ outcome (main env fuel argv) = Halt InvalidParameter.
Proof.
  destruct (parseCommandLine argv (env_after_argv env) 40061 1 EmptyString 256) as [out [c|h]] eqn:P.
  - destruct (Z.eq_dec (env_WSAStartup env) 0) as [W|W];
      [|rewrite (main_startup_failed out c P W); left; reflexivity].
    unfold main. rewrite P, and_then_ret. cbn [outcome snd].
    unfold initWinSock. rewrite W. cbn [Z.eqb negb]. rewrite call_then.
    cbn [Z.eqb negb outcome snd].
    unfold socket, setsockopt, bind.
    repeat (rewrite call_then; cbn [outcome snd];
            match goal with
            | |- context [if ?r <? 0 then _ else _] =>
                destruct (r <? 0); [left; reflexivity|]
            end).
    fold (dispatched_loop env fuel (wrap_int (env_socket env)) c).
    destruct (dispatched_loop_never_returns (wrap_int (env_socket env)) c) as [R|R];
      rewrite (and_then_halted _ _ _ R); auto.
  - rewrite (main_parse_halted out h P). cbn [outcome snd].
    assert (H : h = InvalidParameter).
    { apply (parse_args_halts 256 (env_after_argv env) (tl argv)
               (mk_RunConfiguration 40061 1 0 EmptyString)).
      unfold parseCommandLine in P. rewrite P. reflexivity. }
    rewrite H. auto.
Qed.

End Driver.

(** C4. After the arguments are parsed and Winsock is started, [main] makes
    the four provisioning calls in this order: [socket] for a datagram IPv4
    socket, [setsockopt] enabling [SO_BROADCAST], [setsockopt] setting
    [IP_MULTICAST_TTL] to the configured hop limit, [bind] to the wildcard
    address and the configured port. When the [k]-th of them is the first to
    fail, the run consists of the calls up to and including that one,
    followed by the [perror] report of that step and [exit(1)]: no later
    step is made and no loop is entered. When none fails, all four are made
    and the dispatched loop follows. *)
Theorem C4_provisioning_steps
    (env : Env) (fuel : nat) (argv : list string)
    (out : list event) (c : RunConfiguration) :
  parseCommandLine argv (env_after_argv env) 40061 1 EmptyString 256 = (out, Ret c) ->
  env_WSAStartup env = 0 ->
  main env fuel argv
  = match first_failure (provisioning_results env) with
    | Some k =>
        (out ++ WSAStartup (MAKEWORD 1 1)
             :: firstn (S k) (provisioning_calls (wrap_int (env_socket env)) c)
             ++ [Perror (nth k provisioning_messages EmptyString)],
         Halt (Exited 1))
    | None =>
        (out ++ WSAStartup (MAKEWORD 1 1)
             :: provisioning_calls (wrap_int (env_socket env)) c
             ++ trace (dispatched_loop env fuel (wrap_int (env_socket env)) c),
         outcome (Proc.and_then (dispatched_loop env fuel (wrap_int (env_socket env)) c)
                    (fun _ => exit 0)))
    end.
Proof.
  intros P W. unfold main. rewrite P, and_then_ret. unfold initWinSock.
  rewrite W. cbn [Z.eqb negb]. rewrite call_then. cbn [Z.eqb negb].
  unfold socket, setsockopt, bind, provisioning_results, first_failure.
  rewrite call_then.
  destruct (wrap_int (env_socket env) <? 0); [reflexivity|].
  rewrite call_then.
  destruct (env_setsockopt env SOL_SOCKET SO_BROADCAST <? 0); [reflexivity|].
  rewrite call_then.
  destruct (env_setsockopt env IPPROTO_IP IP_MULTICAST_TTL <? 0); [reflexivity|].
  rewrite call_then.
  destruct (env_bind env <? 0); [reflexivity|].
  fold (dispatched_loop env fuel (wrap_int (env_socket env)) c).
  cbn [option_map trace outcome fst snd provisioning_calls app].
  destruct (dispatched_loop env fuel (wrap_int (env_socket env)) c) as [t [[]|h]];
    [|reflexivity].
  cbn. rewrite app_nil_r. reflexivity.
Qed.

Lemma C4_provisioning_steps_witness :
  main (failing_env 3) 5 ["broadcast"; "-p41000"; "-t4"]%string
  = ([ WSAStartup 257;
       Socket AF_INET SOCK_DGRAM 0;
       Setsockopt 100 SOL_SOCKET SO_BROADCAST 1;
       Setsockopt 100 IPPROTO_IP IP_MULTICAST_TTL 4;
       Bind 100 (mk_sockaddr_in AF_INET (htons 41000) 0);
       Perror "Binding socket" ],
     Halt (Exited 1))
  /\ main (failing_env 0) 5 ["broadcast"; "-p41000"; "-t4"]%string
     = ([ WSAStartup 257; Socket AF_INET SOCK_DGRAM 0; Perror "Setting up socket" ],
        Halt (Exited 1)).
Proof.
  split.
  - exact (C4_provisioning_steps (failing_env 3) 5 ["broadcast"; "-p41000"; "-t4"]%string
             [] (mk_RunConfiguration 41000 4 0 EmptyString) eq_refl eq_refl).
  - exact (C4_provisioning_steps (failing_env 0) 5 ["broadcast"; "-p41000"; "-t4"]%string
             [] (mk_RunConfiguration 41000 4 0 EmptyString) eq_refl eq_refl).
Defined.

(** C9. Neither loop returns: however long a run of the broadcaster or of
    the receiver is observed, it is either still running or has ended in
    [exit(1)]. Hence [main] never reaches the [exit(0)] that follows the
    dispatch, and never returns a value: a run of [main] is still running,
    or has ended with status 1, or was cut short while the arguments were
    parsed. *)
Theorem C9_loops_never_return (env : Env) (fuel : nat) :
  (forall (s nPort : Z) (sAddr : string),
      outcome (broadcast env fuel s nPort sAddr) = Halt Running
      \/ outcome (broadcast env fuel s nPort sAddr) = Halt (Exited 1))
  /\ (forall s : Z,
         outcome (receive env fuel s) = Halt Running
         \/ outcome (receive env fuel s) = Halt (Exited 1))
  /\ (forall argv : list string,
         outcome (main env fuel argv) <> Halt (Exited 0)
         /\ (forall status : Z, outcome (main env fuel argv) <> Ret status)
         /\ (forall status : Z,
                outcome (main env fuel argv) = Halt (Exited status) -> status = 1)).
Proof.
  split; [|split].
  - intros s nPort sAddr. unfold broadcast. rewrite printf_then.
    apply broadcast_loop_never_returns.
  - intros s. unfold receive. rewrite printf_then. apply receive_loop_never_returns.
  - intros argv.
    destruct (main_outcome env fuel argv) as [H|[H|H]]; rewrite H;
      repeat split; try discriminate; intros status E; injection E as <-; reflexivity.
Qed.

(* ===================================================================== *)
(** * The loops go on as long as the calls succeed *)
(* ===================================================================== *)

Lemma broadcast_keeps_running
    (env : Env) (fuel : nat) (s nPort : Z) (sAddr : string) :
  (forall i, (i < fuel)%nat -> 0 <= env_sendto env i) ->
  outcome (broadcast env fuel s nPort sAddr) = Halt Running
  /\ List.length (sent_values (trace (broadcast env fuel s nPort sAddr))) = fuel.
Proof.
  intros H.
  pose proof (broadcast_loop_successes env s (destination env nPort sAddr) fuel 0 0) as E.
  rewrite Nat.add_0_r in E. specialize (E ltac:(intros j Hj; apply H; lia)).
  unfold broadcast. rewrite printf_then. change 0 with (counter 0). rewrite E.
  cbn [outcome trace fst snd broadcast_loop stop]. split; [reflexivity|].
  change (Printf ?x :: ?l) with ([Printf x] ++ l).
  rewrite !sent_values_app, sent_values_iterations.
  cbn [sent_values flat_map app]. rewrite app_nil_r, length_map, length_seq.
  reflexivity.
Qed.

Lemma receive_loop_keeps_running (env : Env) (s : Z) (fuel : nat) :
  forall (i : nat) (v : Z),
    (forall j, (i <= j < i + fuel)%nat -> 0 <= rv_result (env_recvfrom env j sizeof_int)) ->
    outcome (receive_loop env fuel i s v) = Halt Running.
Proof.
  induction fuel as [|fuel IH]; intros i v H; [reflexivity|].
  rewrite receive_loop_received by (apply H; lia).
  cbn [outcome snd]. apply IH. intros j Hj. apply H. lia.
Qed.

(* ===================================================================== *)
(** * Scenarios *)
(* ===================================================================== *)

(** A receiver started with [-r -p41000] on a network that delivers the
    counter values 0 and 1. *)
Example receiver_scenario :
  main (sample_env 0 counting_network) 2 ["broadcast"; "-r"; "-p41000"]%string
  = ([ WSAStartup 257;
       Socket AF_INET SOCK_DGRAM 0;
       Setsockopt 100 SOL_SOCKET SO_BROADCAST 1;
       Setsockopt 100 IPPROTO_IP IP_MULTICAST_TTL 1;
       Bind 100 (mk_sockaddr_in AF_INET (htons 41000) 0);
       Printf ("Waiting for data" ++ LF)%string;
       Recvfrom 100 4;
       Printf ("Received 0 from '10.0.0.7'" ++ LF)%string;
       Recvfrom 100 4;
       Printf ("Received 1 from '10.0.0.7'" ++ LF)%string ],
     Halt Running).
Proof. vm_compute. reflexivity. Qed.

(** A broadcaster started with [-a10.0.0.255] sends to 10.0.0.255, port
    40061. *)
Example override_scenario :
  main (sample_env 2 counting_network) 2 ["broadcast"; "-a10.0.0.255"]%string
  = ([ WSAStartup 257;
       Socket AF_INET SOCK_DGRAM 0;
       Setsockopt 100 SOL_SOCKET SO_BROADCAST 1;
       Setsockopt 100 IPPROTO_IP IP_MULTICAST_TTL 1;
       Bind 100 (mk_sockaddr_in AF_INET (htons 40061) 0);
       Printf ("Broadcast to 10.0.0.255:40061" ++ LF)%string;
       Printf ("Sending 0" ++ LF)%string;
       Sendto 100 (int_bytes 0)
         (mk_sockaddr_in AF_INET (htons 40061) (inet_addr_dotted "10.0.0.255"));
       Sleep 5000;
       Printf ("Sending 1" ++ LF)%string;
       Sendto 100 (int_bytes 1)
         (mk_sockaddr_in AF_INET (htons 40061) (inet_addr_dotted "10.0.0.255"));
       Sleep 5000 ],
     Halt Running).
Proof. vm_compute. reflexivity. Qed.

(** An empty argument is read as the argument after it: [broadcast "" rx]
    runs as a receiver, the empty argument having [r] at index 1. *)
Example empty_argument_scenario :
  main (sample_env 2 counting_network) 1 ["broadcast"; EmptyString; "rx"]%string
  = ([ Printf (unknown_text "x");
       WSAStartup 257;
       Socket AF_INET SOCK_DGRAM 0;
       Setsockopt 100 SOL_SOCKET SO_BROADCAST 1;
       Setsockopt 100 IPPROTO_IP IP_MULTICAST_TTL 1;
       Bind 100 (mk_sockaddr_in AF_INET (htons 40061) 0);
       Printf ("Waiting for data" ++ LF)%string;
       Recvfrom 100 4;
       Printf ("Received 0 from '10.0.0.7'" ++ LF)%string ],
     Halt Running).
Proof. vm_compute. reflexivity. Qed.

(* ===================================================================== *)
(** * Further properties of the Configuration Resolver *)
(* ===================================================================== *)

(** What one argument does to each field. *)
Lemma parse_arg_fields (n : Z) (arg next : string) (c c' : RunConfiguration)
    (out : list event) :
  parse_arg n arg next c = (out, Ret c') ->
  nPort c' = (if (flag_of arg next =? "p")%char then strtol (text_of arg next) else nPort c)
  /\ nTtl c' = (if (flag_of arg next =? "t")%char then strtol (text_of arg next) else nTtl c)
  /\ sOvrAddr c'
     = (if (flag_of arg next =? "a")%char then text_of arg next else sOvrAddr c)
  /\ bRecv c' = (if (flag_of arg next =? "r")%char then 1 else bRecv c)
  /\ ((flag_of arg next =? "a")%char = true -> strlen (text_of arg next) < n).
Proof.
  unfold parse_arg, flag_of, text_of.
  generalize (char_at_1 (after_first arg next)) as k,
             (text_at_2 (after_first arg next)) as t.
  intros k t.
  destruct (Ascii.eqb_spec k "a") as [->|Na].
  { unfold strcpy_s. destruct (Z.ltb_spec (strlen t) n) as [L|L]; [|discriminate].
    intros H. injection H as _ <-. cbn. auto. }
  destruct (Ascii.eqb_spec k "p") as [->|Np];
    [intros H; injection H as _ <-; cbn; repeat split; discriminate|].
  destruct (Ascii.eqb_spec k "r") as [->|Nr];
    [intros H; injection H as _ <-; cbn; repeat split; discriminate|].
  destruct (Ascii.eqb_spec k "t") as [->|Nt];
    [intros H; injection H as _ <-; cbn; repeat split; discriminate|].
  destruct (k =? "?")%char; intros H; injection H as _ <-; repeat split; discriminate.
Qed.

(** X1. When the parse runs to the end, each field of the result is decided
    by the last argument that names it: the port by the last argument with
    [p] at index 1, the hop limit by the last with [t], the override by the
    last with [a] (so a later bare [-a] removes an earlier override); a
    field no argument names keeps the value passed in. Receiver mode, once
    requested by any argument with [r] at index 1, is never taken back. An
    empty argument counts with the character and the text it is read with:
    those after its terminator. *)
Theorem parse_last_occurrence_wins
    (n : Z) (beyond : string) (args : list string) :
  forall (c c' : RunConfiguration) (out : list event),
    parse_args n beyond args c = (out, Ret c') ->
    nPort c' = match last_text "p" beyond args with Some t => strtol t | None => nPort c end
    /\ nTtl c' = match last_text "t" beyond args with Some t => strtol t | None => nTtl c end
    /\ sOvrAddr c' = match last_text "a" beyond args with Some t => t | None => sOvrAddr c end
    /\ bRecv c' = (if requests_receiver beyond args then 1 else bRecv c).
Proof.
  induction args as [|a args IH]; intros c c' out H.
  - injection H as _ <-. cbn. auto.
  - rewrite parse_args_cons in H.
    destruct (parse_arg n a (next_text beyond args) c) as [t1 [c1|h]] eqn:E1;
      [|discriminate H].
    rewrite and_then_ret in H. injection H as _ H2.
    destruct (parse_args n beyond args c1) as [t2 r2] eqn:E2. cbn [outcome snd] in H2.
    subst r2.
    destruct (IH c1 c' t2 E2) as (Ip & It & Ia & Ir).
    destruct (parse_arg_fields n a _ c c1 t1 E1) as (Fp & Ft & Fa & Fr & _).
    cbn [last_text requests_receiver].
    rewrite Ip, It, Ia, Ir, Fp, Ft, Fa, Fr.
    repeat split.
    + destruct (last_text "p" beyond args); [reflexivity|].
      destruct (flag_of a (next_text beyond args) =? "p")%char; reflexivity.
    + destruct (last_text "t" beyond args); [reflexivity|].
      destruct (flag_of a (next_text beyond args) =? "t")%char; reflexivity.
    + destruct (last_text "a" beyond args); [reflexivity|].
      destruct (flag_of a (next_text beyond args) =? "a")%char; reflexivity.
    + destruct (requests_receiver beyond args); [rewrite orb_true_r; reflexivity|].
      rewrite orb_false_r. reflexivity.
Qed.

Lemma parse_last_occurrence_wins_witness :
  (exists (out : list event) (c : RunConfiguration),
      parse_args 256 EmptyString ["-p1"; "-a10.0.0.255"; "-r"; "-p2"; "-a"; "-q"]%string
        (mk_RunConfiguration 40061 1 0 EmptyString) = (out, Ret c)
      /\ nPort c = 2 /\ nTtl c = 1 /\ sOvrAddr c = EmptyString /\ bRecv c = 1)
  /\ (exists (out : list event) (c : RunConfiguration),
         parse_args 256 EmptyString ["-p5"; EmptyString; "p7"]%string
           (mk_RunConfiguration 40061 1 0 EmptyString) = (out, Ret c)
         /\ nPort c = 7 /\ nTtl c = 1 /\ sOvrAddr c = EmptyString /\ bRecv c = 0).
Proof.
  split.
  - eexists _, _. split; [reflexivity|].
    exact (parse_last_occurrence_wins 256 EmptyString
             ["-p1"; "-a10.0.0.255"; "-r"; "-p2"; "-a"; "-q"]%string
             (mk_RunConfiguration 40061 1 0 EmptyString) _ _ eq_refl).
  - eexists _, _. split; [reflexivity|].
    exact (parse_last_occurrence_wins 256 EmptyString
             ["-p5"; EmptyString; "p7"]%string
             (mk_RunConfiguration 40061 1 0 EmptyString) _ _ eq_refl).
Defined.

(** X3. Every configuration [main] obtains from [parseCommandLine] has a
    port and a hop limit within the range of [int], an override that fits
    the 256-byte buffer with its terminator, and a receiver flag that is 0
    or 1. *)
Theorem parsed_configuration_bounds
    (argv : list string) (beyond : string) (out : list event) (c : RunConfiguration) :
  parseCommandLine argv beyond 40061 1 EmptyString 256 = (out, Ret c) ->
  INT_MIN <= nPort c <= INT_MAX
  /\ INT_MIN <= nTtl c <= INT_MAX
  /\ strlen (sOvrAddr c) < 256
  /\ (bRecv c = 0 \/ bRecv c = 1).
Proof.
  unfold parseCommandLine.
  assert (G : forall args c0 c1 t,
             parse_args 256 beyond args c0 = (t, Ret c1) ->
             (INT_MIN <= nPort c0 <= INT_MAX /\ INT_MIN <= nTtl c0 <= INT_MAX
              /\ strlen (sOvrAddr c0) < 256 /\ (bRecv c0 = 0 \/ bRecv c0 = 1)) ->
             INT_MIN <= nPort c1 <= INT_MAX /\ INT_MIN <= nTtl c1 <= INT_MAX
             /\ strlen (sOvrAddr c1) < 256 /\ (bRecv c1 = 0 \/ bRecv c1 = 1)).
  { induction args as [|a args IH]; intros c0 c1 t H I.
    - injection H as _ <-. exact I.
    - rewrite parse_args_cons in H.
      destruct (parse_arg 256 a (next_text beyond args) c0) as [t1 [c2|h]] eqn:E1;
        [|discriminate H].
      rewrite and_then_ret in H. injection H as _ H2.
      destruct (parse_args 256 beyond args c2) as [t2 r2] eqn:E2.
      cbn [outcome snd] in H2.
      subst r2. apply (IH c2 c1 t2 E2).
      destruct I as (Ip & It & Ia & Ir).
      destruct (parse_arg_fields 256 a _ c0 c2 t1 E1) as (Fp & Ft & Fa & Fr & Fl).
      rewrite Fp, Ft, Fa, Fr. repeat split.
      + destruct (flag_of a (next_text beyond args) =? "p")%char;
          [apply strtol_range|apply Ip].
      + destruct (flag_of a (next_text beyond args) =? "p")%char;
          [apply strtol_range|apply Ip].
      + destruct (flag_of a (next_text beyond args) =? "t")%char;
          [apply strtol_range|apply It].
      + destruct (flag_of a (next_text beyond args) =? "t")%char;
          [apply strtol_range|apply It].
      + destruct (flag_of a (next_text beyond args) =? "a")%char eqn:Ea; [|exact Ia].
        apply Fl. reflexivity.
      + destruct (flag_of a (next_text beyond args) =? "r")%char;
          [right; reflexivity|exact Ir]. }
  intros H. apply (G _ _ _ _ H).
  cbn [nPort nTtl sOvrAddr bRecv]. unfold INT_MIN, INT_MAX.
  repeat split; lia.
Qed.

Lemma parsed_configuration_bounds_witness :
  exists (out : list event) (c : RunConfiguration),
    parseCommandLine ["broadcast"; "-p99999999999"; "-t-99999999999"; "-ahello"]%string
      EmptyString 40061 1 EmptyString 256 = (out, Ret c)
    /\ INT_MIN <= nPort c <= INT_MAX
    /\ INT_MIN <= nTtl c <= INT_MAX
    /\ strlen (sOvrAddr c) < 256
    /\ (bRecv c = 0 \/ bRecv c = 1).
Proof.
  eexists _, _. split; [vm_compute; reflexivity|].
  exact (parsed_configuration_bounds
           ["broadcast"; "-p99999999999"; "-t-99999999999"; "-ahello"]%string
           EmptyString _ _ eq_refl).
Defined.

(* ===================================================================== *)
(** * Decimal texts *)
(* ===================================================================== *)

(** X5. What [printf("%d")] writes, [strtol] reads back: the text of a
    number that fits a [long] parses to that number (and to the nearest
    bound otherwise). So the port the broadcaster announces, given back as a
    [p] argument, is the port it sends to, and a [p] argument that is a port
    in decimal sets exactly that port. *)
Theorem strtol_reads_back_fmt_d (z : Z) :
  strtol (fmt_d z) = clamp_long z
  /\ (forall nPort : Z, strtol (fmt_d (ntohs (htons nPort))) = nPort mod 2 ^ 16)
  /\ (forall (n : Z) (c0 : ascii) (next : string) (cfg : RunConfiguration) (port : Z),
         0 <= port <= 65535 ->
         parse_arg n (String c0 (String "p" (fmt_d port))) next cfg
         = ret (mk_RunConfiguration port (nTtl cfg) (bRecv cfg) (sOvrAddr cfg))).
Proof.
  assert (R : forall x, strtol (fmt_d x) = clamp_long x).
  { intros x. unfold fmt_d.
    rewrite <- (DecimalZ.of_to x) at 2.
    destruct x as [|p|p]; [reflexivity| |];
      cbn [Z.to_int NilZero.string_of_int Z.of_int];
      pose proof (Unsigned.to_uint_nonnil p) as NN;
      destruct (strtol_of_uint (Pos.to_uint p) NN) as [P Ng];
      unfold NilZero.string_of_uint;
      destruct (Pos.to_uint p) eqn:E; try contradiction; first [exact P | exact Ng]. }
  split; [apply R|]. split.
  - intros nPort. rewrite R, ntohs_htons.
    pose proof (Z.mod_pos_bound nPort (2 ^ 16) ltac:(lia)).
    unfold clamp_long, LONG_MIN, LONG_MAX, INT_MIN, INT_MAX.
    destruct (Z.ltb_spec (nPort mod 2 ^ 16) (- 2 ^ 31)); [lia|].
    destruct (Z.ltb_spec (2 ^ 31 - 1) (nPort mod 2 ^ 16)); lia.
  - intros n c0 next cfg port Hp.
    change (parse_arg n (String c0 (String "p" (fmt_d port))) next cfg)
      with (ret (mk_RunConfiguration (strtol (fmt_d port)) (nTtl cfg) (bRecv cfg)
                   (sOvrAddr cfg))).
    rewrite R. do 2 f_equal.
    unfold clamp_long, LONG_MIN, LONG_MAX, INT_MIN, INT_MAX.
    destruct (Z.ltb_spec port (- 2 ^ 31)); [lia|].
    destruct (Z.ltb_spec (2 ^ 31 - 1) port); lia.
Qed.

Lemma strtol_reads_back_fmt_d_witness :
  parse_arg 256 (String "-" (String "p" (fmt_d 41000))) EmptyString
    (mk_RunConfiguration 40061 1 0 EmptyString)
  = ret (mk_RunConfiguration 41000 1 0 EmptyString).
Proof.
  apply (strtol_reads_back_fmt_d 0). lia.
Defined.

(* ===================================================================== *)
(** * Further properties of the driver and the broadcaster *)
(* ===================================================================== *)

(** X6. The arguments are parsed before Winsock is started, and a failure
    to start it is fatal: when [WSAStartup] (asked for version 1.1) returns
    a value other than zero, [main] prints, after the output of the parse,
    the line with the error code it returned and exits with status 1
    without any socket call. *)
Theorem startup_failure_is_fatal
    (env : Env) (fuel : nat) (argv : list string) (out : list event)
    (c : RunConfiguration) :
  parseCommandLine argv (env_after_argv env) 40061 1 EmptyString 256 = (out, Ret c) ->
  env_WSAStartup env <> 0 ->
  main env fuel argv
  = (out ++ [ WSAStartup 257;
              Printf ("WSAStartup failed with error: "
                        ++ fmt_d (env_WSAStartup env) ++ LF)%string ],
     Halt (Exited 1)).
Proof.
  intros P W. unfold main. rewrite P, and_then_ret. unfold initWinSock.
  destruct (Z.eqb_spec (env_WSAStartup env) 0) as [E|E]; [contradiction|].
  reflexivity.
Qed.

Lemma startup_failure_is_fatal_witness :
  main (mk_Env 10091 100 (fun _ _ => 0) 0 (fun _ => 4)
          (fun i len => winsock_recvfrom len (counting_network i)) inet_addr_dotted
          EmptyString)
    3 ["broadcast"; "-z"; "-r"]%string
  = ([ Printf (unknown_text "z"); WSAStartup 257;
       Printf ("WSAStartup failed with error: 10091" ++ LF)%string ],
     Halt (Exited 1)).
Proof.
  apply (startup_failure_is_fatal
           (mk_Env 10091 100 (fun _ _ => 0) 0 (fun _ => 4)
              (fun i len => winsock_recvfrom len (counting_network i)) inet_addr_dotted
              EmptyString)
           3 ["broadcast"; "-z"; "-r"]%string [Printf (unknown_text "z")]
           (mk_RunConfiguration 40061 1 1 EmptyString)).
  - reflexivity.
  - cbn. lia.
Defined.

(** X7. An override that [inet_addr] cannot read (it answers
    [INADDR_NONE]) is not reported: since [INADDR_NONE] is the all-ones
    address, the broadcaster announces 255.255.255.255 and sends every
    datagram there, exactly as without an override. *)
Theorem unreadable_override_is_broadcast
    (env : Env) (fuel : nat) (s nPort : Z) (sAddr : string) :
  env_inet_addr env sAddr = INADDR_NONE ->
  destination env nPort sAddr = destination env nPort EmptyString
  /\ trace (broadcast env fuel s nPort sAddr) = trace (broadcast env fuel s nPort EmptyString)
  /\ sends_only_to (mk_sockaddr_in AF_INET (htons nPort) INADDR_BROADCAST)
       (trace (broadcast env fuel s nPort sAddr))
  /\ broadcast_to_text (destination env nPort sAddr)
     = ("Broadcast to 255.255.255.255:" ++ fmt_d (nPort mod 2 ^ 16) ++ LF)%string.
Proof.
  intros H.
  assert (D : destination env nPort sAddr
              = mk_sockaddr_in AF_INET (htons nPort) INADDR_BROADCAST).
  { unfold destination. destruct (0 <? strlen sAddr); [rewrite H|]; reflexivity. }
  assert (D0 : destination env nPort EmptyString
               = mk_sockaddr_in AF_INET (htons nPort) INADDR_BROADCAST) by reflexivity.
  split; [rewrite D, D0; reflexivity|]. split; [|split].
  - unfold broadcast. rewrite D, D0. reflexivity.
  - unfold broadcast. rewrite D, printf_then. cbn [trace fst].
    constructor; [exact I|]. apply broadcast_loop_sends_to_dst.
  - rewrite D. unfold broadcast_to_text. cbn [sin_addr sin_port].
    rewrite ntohs_htons. reflexivity.
Qed.

Lemma unreadable_override_is_broadcast_witness :
  trace (broadcast (sample_env 1 counting_network) 1 100 40061 "hello")
  = [ Printf ("Broadcast to 255.255.255.255:40061" ++ LF)%string;
      Printf (sending_text 0);
      Sendto 100 (int_bytes 0) (mk_sockaddr_in AF_INET (htons 40061) INADDR_BROADCAST);
      Sleep 5000 ].
Proof.
  destruct (unreadable_override_is_broadcast (sample_env 1 counting_network) 1 100 40061
              "hello" eq_refl) as (_ & T & _ & _).
  rewrite T. reflexivity.
Defined.


(* ===================================================================== *)
(** * Runs of the receiver *)
(* ===================================================================== *)

Lemma receive_loop_successes (env : Env) (s : Z) (N : nat) :
  forall fuel i : nat,
    (forall j, (i <= j < i + N)%nat -> 0 <= rv_result (env_recvfrom env j sizeof_int)) ->
    receive_loop env (N + fuel) i s (receiver_value env i)
    = (flat_map (receive_iteration env s) (seq i N)
         ++ trace (receive_loop env fuel (i + N) s (receiver_value env (i + N))),
       outcome (receive_loop env fuel (i + N) s (receiver_value env (i + N)))).
Proof.
  induction N as [|N IH]; intros fuel i H.
  - rewrite Nat.add_0_r. cbn [Nat.add seq flat_map app]. apply proc_eta.
  - cbn [Nat.add]. rewrite receive_loop_received by (apply H; lia).
    change (store_prefix (rv_data (env_recvfrom env i sizeof_int)) (receiver_value env i))
      with (receiver_value env (S i)).
    rewrite IH by (intros j Hj; apply H; lia).
    cbn [trace outcome fst snd seq flat_map receive_iteration app].
    replace (S i + N)%nat with (i + S N)%nat by lia. reflexivity.
Qed.

(** X8. The receiver prints one line for every [recvfrom] that does not
    fail, in the order of the calls and without comparing datagrams with
    one another: the line shows the value [nValue] holds after the call and
    the address the call stored. The first [recvfrom] that fails ends the run
    with status 1; the error code is printed before that only when the
    result is [SOCKET_ERROR]. *)
Theorem receiver_reports_every_datagram
    (env : Env) (s : Z) (N fuel : nat) :
  (forall j, (j < N)%nat -> 0 <= rv_result (env_recvfrom env j sizeof_int)) ->
  (N <= fuel)%nat ->
  exists rest : list event,
    trace (receive env fuel s)
    = Printf ("Waiting for data" ++ LF)%string
        :: flat_map (receive_iteration env s) (seq 0 N) ++ rest
    /\ ((N < fuel)%nat -> rv_result (env_recvfrom env N sizeof_int) < 0 ->
        rest = Recvfrom s sizeof_int
                 :: (if rv_result (env_recvfrom env N sizeof_int) =? SOCKET_ERROR
                     then [Printf (recv_failed_text
                                     (rv_error (env_recvfrom env N sizeof_int)))]
                     else [])
        /\ outcome (receive env fuel s) = Halt (Exited 1)).
Proof.
  intros Hok Hfuel.
  pose proof (receive_loop_successes env s N (fuel - N) 0) as E.
  replace (N + (fuel - N))%nat with fuel in E by lia.
  specialize (E ltac:(intros j Hj; apply Hok; lia)). cbn [Nat.add receiver_value] in E.
  exists (trace (receive_loop env (fuel - N) N s (receiver_value env N))).
  unfold receive. rewrite printf_then, E. cbn [trace outcome fst snd].
  split; [reflexivity|].
  intros Hlt Hfail.
  replace (fuel - N)%nat with (S (fuel - N - 1)) by lia.
  rewrite receive_loop_failed by exact Hfail. split; reflexivity.
Qed.

Lemma receiver_reports_every_datagram_witness :
  (exists rest : list event,
      trace (receive (sample_env 0 short_network) 2 100)
      = Printf ("Waiting for data" ++ LF)%string
          :: flat_map (receive_iteration (sample_env 0 short_network) 100) (seq 0 2)
          ++ rest)
  /\ outcome (receive (sample_env 0 oversized_network) 3 100) = Halt (Exited 1).
Proof.
  split.
  - assert (H : forall j, (j < 2)%nat ->
                  0 <= rv_result (env_recvfrom (sample_env 0 short_network) j sizeof_int)).
    { intros j Hj. destruct j as [|[|j]]; [cbn; lia | cbn; lia | lia]. }
    destruct (receiver_reports_every_datagram (sample_env 0 short_network) 100 2 2
                H ltac:(lia)) as (rest & T & _).
    exists rest. exact T.
  - assert (H : forall j, (j < 0)%nat ->
                  0 <= rv_result (env_recvfrom (sample_env 0 oversized_network) j sizeof_int))
      by (intros j Hj; lia).
    destruct (receiver_reports_every_datagram (sample_env 0 oversized_network) 100 0 3
                H ltac:(lia)) as (rest & _ & F).
    apply F; [lia|reflexivity].
Defined.

(* ===================================================================== *)
(** * A broadcaster heard by a receiver *)
(* ===================================================================== *)

Lemma sent_payloads_app (t1 t2 : list event) :
  sent_payloads (t1 ++ t2) = sent_payloads t1 ++ sent_payloads t2.
Proof. unfold sent_payloads. apply flat_map_app. Qed.

Lemma sent_payloads_iterations (s : Z) (dst : sockaddr_in) (l : list nat) :
  sent_payloads (flat_map (fun j => send_iteration s dst (counter j)) l)
  = map (fun j => int_bytes (counter j)) l.
Proof.
  unfold sent_payloads.
  induction l as [|j l IH]; [reflexivity|].
  cbn [flat_map map send_iteration app] in *. rewrite IH. reflexivity.
Qed.

Lemma flat_map_ext_in {A B} (f g : A -> list B) (l : list A) :
  (forall a, In a l -> f a = g a) -> flat_map f l = flat_map g l.
Proof.
  induction l as [|a l IH]; intros H; [reflexivity|].
  cbn [flat_map]. rewrite (H a (or_introl eq_refl)), IH; [reflexivity|].
  intros b Hb. apply H. right. exact Hb.
Qed.

(** X9. The two loops agree on the wire format. When the first [N] sends of
    a broadcaster succeed and a receiver is handed those datagrams in order,
    the receiver's first [N] reports show exactly the counter values the
    broadcaster announced: the [j]-th line reads the value of the [j]-th
    [Sending] line, from the address the datagram came from. *)
Theorem receiver_reports_what_broadcaster_sent
    (envB envR : Env) (N fuelB fuelR : nat) (sB sR nPort : Z) (sAddr : string)
    (source : sockaddr_in) :
  (forall i, (i < N)%nat -> 0 <= env_sendto envB i) ->
  (N <= fuelB)%nat ->
  (N <= fuelR)%nat ->
  (forall j, env_recvfrom envR j sizeof_int
             = winsock_recvfrom sizeof_int
                 (relay (trace (broadcast envB fuelB sB nPort sAddr)) source j)) ->
  exists restB restR : list event,
    trace (broadcast envB fuelB sB nPort sAddr)
    = Printf (broadcast_to_text (destination envB nPort sAddr))
        :: flat_map (fun j => send_iteration sB (destination envB nPort sAddr) (counter j))
             (seq 0 N)
        ++ restB
    /\ trace (receive envR fuelR sR)
       = Printf ("Waiting for data" ++ LF)%string
           :: flat_map (fun j => [ Recvfrom sR sizeof_int;
                                   Printf (received_text (counter j) source) ])
                (seq 0 N)
           ++ restR.
Proof.
  intros Hok HfB HfR Hnet.
  set (dst := destination envB nPort sAddr).
  pose proof (broadcast_loop_successes envB sB dst N (fuelB - N) 0) as EB.
  replace (N + (fuelB - N))%nat with fuelB in EB by lia.
  specialize (EB ltac:(intros j Hj; apply Hok; lia)). cbn [Nat.add] in EB.
  change (counter 0) with 0 in EB at 1.
  assert (TB : trace (broadcast envB fuelB sB nPort sAddr)
               = [Printf (broadcast_to_text dst)]
                   ++ flat_map (fun j => send_iteration sB dst (counter j)) (seq 0 N)
                   ++ trace (broadcast_loop envB (fuelB - N) N sB dst (counter N))).
  { unfold broadcast. fold dst. rewrite printf_then, EB. reflexivity. }
  assert (R : forall j, (j < N)%nat ->
                        env_recvfrom envR j sizeof_int
                        = mk_recv_outcome 4 (int_bytes (counter j)) source 0).
  { intros j Hj. rewrite Hnet. unfold relay.
    rewrite TB, !sent_payloads_app, sent_payloads_iterations.
    cbn [sent_payloads flat_map app].
    rewrite nth_error_app1 by (rewrite length_map, length_seq; exact Hj).
    rewrite nth_error_map, nth_error_seq.
    destruct (Nat.ltb_spec j N) as [_|L]; [|lia].
    reflexivity. }
  pose proof (receive_loop_successes envR sR N (fuelR - N) 0) as ER.
  replace (N + (fuelR - N))%nat with fuelR in ER by lia.
  specialize (ER ltac:(intros j Hj; rewrite R by lia; cbn [rv_result]; lia)).
  cbn [Nat.add receiver_value] in ER.
  exists (trace (broadcast_loop envB (fuelB - N) N sB dst (counter N))),
         (trace (receive_loop envR (fuelR - N) N sR (receiver_value envR N))).
  split; [exact TB|].
  unfold receive. rewrite printf_then, ER. cbn [trace fst]. do 2 f_equal.
  apply flat_map_ext_in. intros j Hj. apply in_seq in Hj.
  unfold receive_iteration. cbn [receiver_value]. rewrite R by lia.
  cbn [rv_data rv_from]. rewrite store_prefix_exact by reflexivity.
  rewrite bytes_int_int_bytes. unfold counter at 1.
  rewrite wrap_int_id by apply wrap_int_range. reflexivity.
Qed.

Lemma receiver_reports_what_broadcaster_sent_witness :
  exists restB restR : list event,
    trace (broadcast (sample_env 3 counting_network) 5 100 41000 EmptyString)
    = Printf (broadcast_to_text (destination (sample_env 3 counting_network) 41000 EmptyString))
        :: flat_map
             (fun j => send_iteration 100
                         (destination (sample_env 3 counting_network) 41000 EmptyString)
                         (counter j))
             (seq 0 3)
        ++ restB
    /\ trace (receive
                (sample_env 0
                   (relay (trace (broadcast (sample_env 3 counting_network) 5 100 41000
                                    EmptyString))
                      sample_source))
                4 200)
       = Printf ("Waiting for data" ++ LF)%string
           :: flat_map (fun j => [ Recvfrom 200 sizeof_int;
                                   Printf (received_text (counter j) sample_source) ])
                (seq 0 3)
           ++ restR.
Proof.
  apply (receiver_reports_what_broadcaster_sent
           (sample_env 3 counting_network)
           (sample_env 0
              (relay (trace (broadcast (sample_env 3 counting_network) 5 100 41000 EmptyString))
                 sample_source))
           3 5 4 100 200 41000 EmptyString sample_source).
  - intros i Hi. destruct i as [|[|[|i]]]; cbn; lia.
  - lia.
  - lia.
  - intros j. reflexivity.
Defined.

(* ===================================================================== *)
(** * One run, one loop *)
(* ===================================================================== *)

Lemma parse_arg_prints (n : Z) (arg next : string) (c : RunConfiguration) :
  forallb is_setup_event (trace (parse_arg n arg next c)) = true.
Proof.
  unfold parse_arg. generalize (after_first arg next) as rest. intros rest.
  destruct (char_at_1 rest =? "a")%char;
    [destruct (strcpy_s n (text_at_2 rest)); reflexivity|].
  destruct (char_at_1 rest =? "p")%char; [reflexivity|].
  destruct (char_at_1 rest =? "r")%char; [reflexivity|].
  destruct (char_at_1 rest =? "t")%char; [reflexivity|].
  destruct (char_at_1 rest =? "?")%char; reflexivity.
Qed.

Lemma parse_args_prints (n : Z) (beyond : string) (args : list string) :
  forall c : RunConfiguration,
    forallb is_setup_event (trace (parse_args n beyond args c)) = true.
Proof.
  induction args as [|a args IH]; intros c; [reflexivity|].
  rewrite parse_args_cons.
  pose proof (parse_arg_prints n a (next_text beyond args) c) as Ha.
  destruct (parse_arg n a (next_text beyond args) c) as [t1 [c1|h]];
    cbn [trace fst] in Ha.
  - rewrite and_then_ret. cbn [trace fst]. rewrite forallb_app, Ha, IH. reflexivity.
  - exact Ha.
Qed.

Lemma parse_args_receiver (n : Z) (beyond : string) (args : list string) :
  forall (c c' : RunConfiguration) (out : list event),
    parse_args n beyond args c = (out, Ret c') ->
    bRecv c' = (if requests_receiver beyond args then 1 else bRecv c).
Proof.
  induction args as [|a args IH]; intros c c' out H.
  - injection H as _ <-. reflexivity.
  - rewrite parse_args_cons in H.
    destruct (parse_arg n a (next_text beyond args) c) as [t1 [c1|h]] eqn:E1;
      [|discriminate H].
    rewrite and_then_ret in H. injection H as _ H2.
    destruct (parse_args n beyond args c1) as [t2 r2] eqn:E2. cbn [outcome snd] in H2.
    subst r2. rewrite (IH c1 c' t2 E2).
    destruct (parse_arg_fields n a _ c c1 t1 E1) as (_ & _ & _ & Fr & _). rewrite Fr.
    cbn [requests_receiver].
    destruct (requests_receiver beyond args); [rewrite orb_true_r; reflexivity|].
    rewrite orb_false_r. reflexivity.
Qed.

Lemma receive_never_sends (env : Env) (s : Z) (fuel : nat) :
  forallb (fun e => negb (is_send_event e)) (trace (receive env fuel s)) = true.
Proof.
  unfold receive. rewrite printf_then. cbn [trace fst forallb is_send_event negb andb].
  generalize 0%nat as i, 0 as v.
  induction fuel as [|fuel IH]; intros i v; [reflexivity|].
  destruct (Z.lt_ge_cases (rv_result (env_recvfrom env i sizeof_int)) 0) as [L|L].
  - rewrite receive_loop_failed by exact L. cbn [trace fst].
    destruct (rv_result (env_recvfrom env i sizeof_int) =? SOCKET_ERROR); reflexivity.
  - rewrite receive_loop_received by exact L.
    cbn [trace fst forallb is_send_event negb andb]. apply IH.
Qed.

Lemma broadcast_never_receives (env : Env) (s nPort : Z) (sAddr : string) (fuel : nat) :
  forallb (fun e => negb (is_recv_event e)) (trace (broadcast env fuel s nPort sAddr)) = true.
Proof.
  unfold broadcast. rewrite printf_then. cbn [trace fst forallb is_recv_event negb andb].
  generalize 0%nat as i, 0 as v.
  induction fuel as [|fuel IH]; intros i v; [reflexivity|].
  destruct (Z.lt_ge_cases (env_sendto env i) 0) as [L|L].
  - rewrite broadcast_loop_failed by exact L. reflexivity.
  - rewrite broadcast_loop_sent by exact L.
    cbn [trace fst send_iteration app forallb is_recv_event negb andb]. apply IH.
Qed.

(** The events of [main]: calls that set the process up, then possibly the
    events of the loop it dispatches to. *)
Lemma main_trace_shape (env : Env) (fuel : nat) (argv : list string) :
  exists pre : list event,
    forallb is_setup_event pre = true
    /\ (trace (main env fuel argv) = pre
        \/ exists (out : list event) (c : RunConfiguration),
             parseCommandLine argv (env_after_argv env) 40061 1 EmptyString 256 = (out, Ret c)
             /\ trace (main env fuel argv)
                = pre ++ trace (dispatched_loop env fuel (wrap_int (env_socket env)) c)).
Proof.
  pose proof (parse_args_prints 256 (env_after_argv env) (tl argv)
                (mk_RunConfiguration 40061 1 0 EmptyString)) as Hout.
  fold (parseCommandLine argv (env_after_argv env) 40061 1 EmptyString 256) in Hout.
  destruct (parseCommandLine argv (env_after_argv env) 40061 1 EmptyString 256)
    as [out [c|h]] eqn:P;
    cbn [trace fst] in Hout.
  2:{ exists out. split; [exact Hout|]. left. unfold main. rewrite P. reflexivity. }
  unfold main. rewrite P, and_then_ret. cbn [trace fst]. unfold initWinSock.
  destruct (Z.eqb_spec (env_WSAStartup env) 0) as [W|W].
  2:{ eexists. split; [|left; reflexivity].
      rewrite forallb_app, Hout. reflexivity. }
  cbn [negb]. rewrite call_then. cbn [Z.eqb negb trace fst].
  unfold socket, setsockopt, bind.
  rewrite call_then. cbn [trace fst].
  destruct (wrap_int (env_socket env) <? 0).
  { eexists. split; [|left; reflexivity]. rewrite forallb_app, Hout. reflexivity. }
  rewrite call_then. cbn [trace fst].
  destruct (env_setsockopt env SOL_SOCKET SO_BROADCAST <? 0).
  { eexists. split; [|left; reflexivity]. rewrite forallb_app, Hout. reflexivity. }
  rewrite call_then. cbn [trace fst].
  destruct (env_setsockopt env IPPROTO_IP IP_MULTICAST_TTL <? 0).
  { eexists. split; [|left; reflexivity]. rewrite forallb_app, Hout. reflexivity. }
  rewrite call_then. cbn [trace fst].
  destruct (env_bind env <? 0).
  { eexists. split; [|left; reflexivity]. rewrite forallb_app, Hout. reflexivity. }
  fold (dispatched_loop env fuel (wrap_int (env_socket env)) c).
  exists (out ++ [ WSAStartup (MAKEWORD 1 1);
                   Socket AF_INET SOCK_DGRAM 0;
                   Setsockopt (wrap_int (env_socket env)) SOL_SOCKET SO_BROADCAST 1;
                   Setsockopt (wrap_int (env_socket env)) IPPROTO_IP IP_MULTICAST_TTL (nTtl c);
                   Bind (wrap_int (env_socket env))
                     (mk_sockaddr_in AF_INET (htons (nPort c)) (htonl INADDR_ANY)) ]).
  split; [rewrite forallb_app, Hout; reflexivity|].
  right. exists out, c. split; [reflexivity|].
  rewrite <- app_assoc. cbn [app]. do 6 f_equal.
  destruct (dispatched_loop env fuel (wrap_int (env_socket env)) c) as [t [[]|h]];
    [|reflexivity].
  cbn. apply app_nil_r.
Qed.

(** X10. A run of [main] is a broadcaster or a receiver, never both, and the
    arguments decide which: when some argument is read with [r] as its flag
    character (the character at index 1; for an empty argument the first
    character after its terminator), the run makes no [sendto] and no
    [Sleep]; when none is, it makes no [recvfrom]. *)
Theorem main_runs_one_loop (env : Env) (fuel : nat) (argv : list string) :
  forallb (fun e => negb (if requests_receiver (env_after_argv env) (tl argv)
                          then is_send_event e else is_recv_event e))
    (trace (main env fuel argv))
  = true.
Proof.
  set (bad := fun e => negb (if requests_receiver (env_after_argv env) (tl argv)
                             then is_send_event e else is_recv_event e)).
  assert (S : forall l, forallb is_setup_event l = true -> forallb bad l = true).
  { intros l Hl. apply forallb_forall. intros e He.
    rewrite forallb_forall in Hl. specialize (Hl e He).
    unfold bad. destruct (requests_receiver (env_after_argv env) (tl argv));
      destruct e; cbn in *; try reflexivity; discriminate Hl. }
  destruct (main_trace_shape env fuel argv) as (pre & Hpre & [E | (out & c & P & E)]);
    rewrite E; [apply S; exact Hpre|].
  rewrite forallb_app, (S pre Hpre). cbn [andb].
  pose proof (parse_args_receiver 256 (env_after_argv env) (tl argv) _ c out P) as R.
  cbn [bRecv] in R.
  unfold dispatched_loop, bad. rewrite R.
  destruct (requests_receiver (env_after_argv env) (tl argv)); cbn [Z.eqb negb].
  - apply receive_never_sends.
  - apply broadcast_never_receives.
Qed.

(* ===================================================================== *)
(** * Text after the number *)
(* ===================================================================== *)

Lemma read_digits_uint_then (d : Decimal.uint) (c : ascii) (r : string) :
  digit_value c = None ->
  forall acc : Z,
    read_digits acc (NilEmpty.string_of_uint d ++ String c r)
    = read_digits acc (NilEmpty.string_of_uint d).
Proof.
  intros Hc.
  induction d; intros acc; cbn [NilEmpty.string_of_uint append read_digits];
    [rewrite Hc; reflexivity| ..];
    match goal with
    | |- context [digit_value ?ch] =>
        let v := eval vm_compute in (digit_value ch) in
        change (digit_value ch) with v; cbv iota beta
    end;
    apply IHd.
Qed.

(** X11. [strtol] stops at the first character that is no digit and the
    rest of the argument is ignored without notice: a [p] or [t] argument
    made of a number in decimal followed by any text that does not start
    with a digit sets the same value as the number alone. *)
Theorem strtol_ignores_trailing_text (z : Z) (c : ascii) (r : string) :
  digit_value c = None ->
  strtol (fmt_d z ++ String c r) = strtol (fmt_d z)
  /\ (forall (n : Z) (c0 : ascii) (next : string) (cfg : RunConfiguration),
         parse_arg n (String c0 (String "p" (fmt_d z ++ String c r))) next cfg
         = parse_arg n (String c0 (String "p" (fmt_d z))) next cfg
         /\ parse_arg n (String c0 (String "t" (fmt_d z ++ String c r))) next cfg
            = parse_arg n (String c0 (String "t" (fmt_d z))) next cfg).
Proof.
  intros Hc.
  assert (U : forall d, d <> Decimal.Nil ->
                strtol (NilEmpty.string_of_uint d ++ String c r)
                = strtol (NilEmpty.string_of_uint d)
                /\ strtol (String "-" (NilEmpty.string_of_uint d ++ String c r))
                   = strtol (String "-" (NilEmpty.string_of_uint d))).
  { intros d Nd.
    pose proof (read_digits_uint_then d c r Hc 0) as E.
    destruct d; [contradiction| ..];
      (split;
       [ change (strtol (NilEmpty.string_of_uint ?x ++ String c r))
           with (clamp_long (read_digits 0 (NilEmpty.string_of_uint x ++ String c r)));
         rewrite E; reflexivity
       | change (strtol (String "-" (NilEmpty.string_of_uint ?x ++ String c r)))
           with (clamp_long
                   (- read_digits 0 (NilEmpty.string_of_uint x ++ String c r)));
         rewrite E; reflexivity ]). }
  assert (R : strtol (fmt_d z ++ String c r) = strtol (fmt_d z)).
  { unfold fmt_d. destruct z as [|p|p].
    - apply (U (Decimal.D0 Decimal.Nil)). discriminate.
    - cbn [Z.to_int NilZero.string_of_int]. unfold NilZero.string_of_uint.
      pose proof (Unsigned.to_uint_nonnil p) as NN.
      destruct (Pos.to_uint p) eqn:E; try contradiction; apply U; discriminate.
    - cbn [Z.to_int NilZero.string_of_int]. unfold NilZero.string_of_uint.
      pose proof (Unsigned.to_uint_nonnil p) as NN.
      destruct (Pos.to_uint p) eqn:E; try contradiction;
        cbn [append]; apply U; discriminate. }
  split; [exact R|].
  intros n c0 next cfg. unfold parse_arg. cbn [after_first char_at_1 text_at_2].
  change ("p" =? "a")%char with false. change ("p" =? "p")%char with true.
  change ("t" =? "a")%char with false. change ("t" =? "p")%char with false.
  change ("t" =? "r")%char with false. change ("t" =? "t")%char with true.
  cbv iota. rewrite R. split; reflexivity.
Qed.

Lemma strtol_ignores_trailing_text_witness :
  strtol "41000x7" = strtol "41000".
Proof.
  apply (strtol_ignores_trailing_text 41000 "x" "7"). reflexivity.
Defined.

(* ===================================================================== *)
(** * The loops end only when a call fails *)
(* ===================================================================== *)

Lemma broadcast_loop_exit_iff (env : Env) (s : Z) (dst : sockaddr_in) (fuel : nat) :
  forall (i : nat) (v : Z),
    outcome (broadcast_loop env fuel i s dst v) = Halt (Exited 1)
    <-> exists j, (i <= j < i + fuel)%nat /\ env_sendto env j < 0.
Proof.
  induction fuel as [|fuel IH]; intros i v.
  - cbn. split; [discriminate|]. intros (j & Hj & _). lia.
  - destruct (Z.lt_ge_cases (env_sendto env i) 0) as [L|L].
    + rewrite broadcast_loop_failed by exact L. cbn [outcome snd].
      split; [|reflexivity]. intros _. exists i. split; [lia|exact L].
    + rewrite broadcast_loop_sent by exact L. cbn [outcome snd]. rewrite IH.
      split; intros (j & Hj & Hf).
      * exists j. split; [lia|exact Hf].
      * exists j. split; [|exact Hf].
        destruct (Nat.eq_dec j i) as [->|]; [lia|lia].
Qed.

Lemma receive_loop_exit_iff (env : Env) (s : Z) (fuel : nat) :
  forall (i : nat) (v : Z),
    outcome (receive_loop env fuel i s v) = Halt (Exited 1)
    <-> exists j, (i <= j < i + fuel)%nat /\ rv_result (env_recvfrom env j sizeof_int) < 0.
Proof.
  induction fuel as [|fuel IH]; intros i v.
  - cbn. split; [discriminate|]. intros (j & Hj & _). lia.
  - destruct (Z.lt_ge_cases (rv_result (env_recvfrom env i sizeof_int)) 0) as [L|L].
    + rewrite receive_loop_failed by exact L. cbn [outcome snd].
      split; [|reflexivity]. intros _. exists i. split; [lia|exact L].
    + rewrite receive_loop_received by exact L. cbn [outcome snd]. rewrite IH.
      split; intros (j & Hj & Hf).
      * exists j. split; [lia|exact Hf].
      * exists j. split; [|exact Hf].
        destruct (Nat.eq_dec j i) as [->|]; [lia|lia].
Qed.

(** X12. A loop ends exactly when one of its calls fails: a run of the
    broadcaster observed for [fuel] iterations has exited (with status 1) if
    and only if one of its first [fuel] calls of [sendto] returned a
    negative value, and a run of the receiver if and only if one of its
    first [fuel] calls of [recvfrom] did; otherwise the loop is still
    running. *)
Theorem loops_end_only_on_failure (env : Env) (fuel : nat) (s : Z) :
  (forall (nPort : Z) (sAddr : string),
      (outcome (broadcast env fuel s nPort sAddr) = Halt (Exited 1)
       <-> exists j, (j < fuel)%nat /\ env_sendto env j < 0)
      /\ (outcome (broadcast env fuel s nPort sAddr) = Halt Running
          <-> forall j, (j < fuel)%nat -> 0 <= env_sendto env j))
  /\ (outcome (receive env fuel s) = Halt (Exited 1)
      <-> exists j, (j < fuel)%nat /\ rv_result (env_recvfrom env j sizeof_int) < 0)
  /\ (outcome (receive env fuel s) = Halt Running
      <-> forall j, (j < fuel)%nat -> 0 <= rv_result (env_recvfrom env j sizeof_int)).
Proof.
  assert (B : forall nPort sAddr,
             outcome (broadcast env fuel s nPort sAddr) = Halt (Exited 1)
             <-> exists j, (j < fuel)%nat /\ env_sendto env j < 0).
  { intros nPort sAddr. unfold broadcast. rewrite printf_then. cbn [outcome snd].
    rewrite broadcast_loop_exit_iff. split; intros (j & Hj & Hf); exists j; split;
      try exact Hf; lia. }
  assert (R : outcome (receive env fuel s) = Halt (Exited 1)
              <-> exists j, (j < fuel)%nat
                            /\ rv_result (env_recvfrom env j sizeof_int) < 0).
  { unfold receive. rewrite printf_then. cbn [outcome snd].
    rewrite receive_loop_exit_iff. split; intros (j & Hj & Hf); exists j; split;
      try exact Hf; lia. }
  split; [|split; [exact R|]].
  - intros nPort sAddr. split; [apply B|].
    assert (N : outcome (broadcast env fuel s nPort sAddr) = Halt Running
                \/ outcome (broadcast env fuel s nPort sAddr) = Halt (Exited 1)).
    { unfold broadcast. rewrite printf_then. apply broadcast_loop_never_returns. }
    split.
    + intros Hrun j Hj.
      destruct (Z.lt_ge_cases (env_sendto env j) 0) as [L|L]; [|exact L].
      assert (E : outcome (broadcast env fuel s nPort sAddr) = Halt (Exited 1))
        by (apply B; exists j; split; assumption).
      rewrite Hrun in E. discriminate E.
    + intros Hall. destruct N as [N|N]; [exact N|].
      apply B in N. destruct N as (j & Hj & Hf). specialize (Hall j Hj). lia.
  - assert (N : outcome (receive env fuel s) = Halt Running
                \/ outcome (receive env fuel s) = Halt (Exited 1)).
    { unfold receive. rewrite printf_then. apply receive_loop_never_returns. }
    split.
    + intros Hrun j Hj.
      destruct (Z.lt_ge_cases (rv_result (env_recvfrom env j sizeof_int)) 0) as [L|L];
        [|exact L].
      assert (E : outcome (receive env fuel s) = Halt (Exited 1))
        by (apply R; exists j; split; assumption).
      rewrite Hrun in E. discriminate E.
    + intros Hall. destruct N as [N|N]; [exact N|].
      apply R in N. destruct N as (j & Hj & Hf). specialize (Hall j Hj). lia.
Qed.

Lemma loops_end_only_on_failure_witness :
  outcome (broadcast (sample_env 3 counting_network) 5 100 40061 EmptyString)
  = Halt (Exited 1)
  /\ outcome (receive (sample_env 0 counting_network) 5 100) = Halt Running.
Proof.
  split.
  - apply (loops_end_only_on_failure (sample_env 3 counting_network) 5 100).
    exists 3%nat. split; [lia|reflexivity].
  - apply (loops_end_only_on_failure (sample_env 0 counting_network) 5 100).
    intros j Hj. cbn. lia.
Defined.
